(** * Catalog helpers: poster resolution and metadata assembly

    A shallow embedding of [src/helpers/catalog.js]: the paid-poster URL
    builder [getRpdbPoster], the three-tier poster pipeline
    [getPosterUrl], the genre lookup [getGenreName] and the batch
    assembler [buildMetas], together with the properties the design
    document states about them.

    JavaScript values are typed after the data model: numeric ids are
    integers, optional fields are [option], and a JavaScript number is a
    mantissa with a binary exponent.  Every [await] on a collaborator
    (cache, HTTP client, cloud store, database pool, logger) is a node of
    a finite call tree; a handler over an arbitrary world state answers
    the calls and the interpreter records them in a trace.

    The callbacks handed to [Promise.all] are in flight together in the
    source; here they run one after the other, in list order.  A handler
    is an arbitrary state machine, so a statement proved for every
    handler covers whatever answers an interleaved run gives to each
    callback. *)

From Stdlib Require Import ZArith String Ascii List Bool Lia.
From stdpp Require Import base option list strings pretty gmap.

Local Open Scope string_scope.
Local Open Scope list_scope.
Local Open Scope Z_scope.

(** ** JavaScript strings *)

Module Js.

(** Truthiness of a string-or-absent value: [undefined], [null] and the
    empty string are falsy. *)
Definition truthy (v : option string) : bool :=
  match v with
  | Some s => negb (String.eqb s "")
  | None => false
  end.

(** [s.split("-")[0]]: the text before the first dash, the whole string
    when it has none. *)
Fixpoint split_dash_0 (s : string) : string :=
  match s with
  | EmptyString => EmptyString
  | String c rest =>
      if Ascii.eqb c "-" then EmptyString else String c (split_dash_0 rest)
  end.

(** [v || d] on strings. *)
Definition or_else (v : option string) (d : string) : string :=
  if truthy v then default d v else d.

(** [v || null]. *)
Definition or_null (v : option string) : option string :=
  if truthy v then v else None.

End Js.

(** ** JavaScript numbers *)

(** A number is [NaN], an infinity, or the finite value [m * 2^e].  Every
    double has this form; for a binary64 value of magnitude at least
    [2^52] the canonical form has [2^52 <= |m| < 2^53]. *)
Inductive number : Type :=
| NaN
| Infinity (negative : bool)
| Finite (m e : Z).

Module Number.

(** [ToBoolean]: zero and [NaN] are falsy. *)
Definition truthy (x : number) : bool :=
  match x with
  | NaN => false
  | Infinity _ => true
  | Finite m _ => negb (m =? 0)
  end.

(** [10^21 <= |m * 2^e|]. *)
Definition at_least_1e21 (m e : Z) : bool :=
  if 0 <=? e then 10 ^ 21 <=? Z.abs m * 2 ^ e
  else 10 ^ 21 * 2 ^ (- e) <=? Z.abs m.

(** The integer [n] for which [n / 10 - |m * 2^e|] is as close to zero as
    possible, the larger one when there are two: [floor (10 |x| + 1/2)]. *)
Definition tenths (m e : Z) : Z :=
  if 0 <=? e then 10 * Z.abs m * 2 ^ e
  else (20 * Z.abs m + 2 ^ (- e)) / 2 ^ (1 - e).

(** Number of decimal digits of a positive integer. *)
Definition digits10 (v : Z) : Z := Z.of_nat (String.length (pretty v)).

(** *** [Number::toString] for finite values from [10^21] on

    The shortest digit string [s] (with [k] digits) and exponent [n] such
    that [s * 10^(n-k)] reads back as the double; the double [m * 2^e]
    owns the reals up to half a gap away, ends included when [m] is
    even. *)
Section Shortest.
Variables (m e : Z).

Let v : Z := m * 2 ^ e.
Let up : Z := 2 ^ (e - 1).
Let down : Z := if m =? 2 ^ 52 then 2 ^ (e - 2) else 2 ^ (e - 1).

Definition reads_back (c : Z) : bool :=
  if Z.even m then (v - down <=? c) && (c <=? v + up)
  else (v - down <? c) && (c <? v + up).

(** The candidate with [k] digits closest to [v], if one reads back. *)
Definition candidate (k : Z) : option Z :=
  let p := 10 ^ (digits10 v - k) in
  let s0 := v / p in
  let lo := reads_back (s0 * p) in
  let hi := reads_back ((s0 + 1) * p) in
  if lo && hi then
    let dl := v - s0 * p in
    let dh := (s0 + 1) * p - v in
    if dl <? dh then Some s0
    else if dh <? dl then Some (s0 + 1)
    else if Z.even s0 then Some s0 else Some (s0 + 1)
  else if lo then Some s0
  else if hi then Some (s0 + 1)
  else None.

Fixpoint shortest_from (fuel : nat) (k : Z) : Z * Z :=
  match fuel with
  | O => (v, digits10 v)
  | S fuel' =>
      match candidate k with
      | Some s =>
          if s =? 10 ^ k then (1, digits10 v + 1) else (s, digits10 v)
      | None => shortest_from fuel' (k + 1)
      end
  end.

Definition shortest : Z * Z := shortest_from 17 1.
End Shortest.

(** Exponent notation [d.ddd e+N] of a positive value from [10^21] on. *)
Definition exponential (m e : Z) : string :=
  let '(s, n) := shortest m e in
  match pretty s with
  | String d EmptyString => String d EmptyString +:+ "e+" +:+ pretty (n - 1)
  | String d ds => String d ("." +:+ ds) +:+ "e+" +:+ pretty (n - 1)
  | EmptyString => EmptyString
  end.

(** [x.toFixed(1)]. Non-finite values and magnitudes from [10^21] on are
    printed by [Number::toString]; otherwise the digits of [tenths] with
    a point before the last one. *)
Definition toFixed1 (x : number) : string :=
  match x with
  | NaN => "NaN"
  | Infinity negative => if negative then "-Infinity" else "Infinity"
  | Finite m e =>
      let sign := if m <? 0 then "-" else "" in
      if at_least_1e21 m e then sign +:+ exponential (Z.abs m) e
      else
        let n := tenths m e in
        sign +:+ pretty (n / 10) +:+ "." +:+ pretty (n mod 10)
  end.

(** [parseFloat(x)] on a truthy number: the text [ToString(x)] reads back
    as [x] itself. *)
Definition parseFloat (x : number) : number := x.

End Number.

(** ** Collaborators

    What a pending promise settles to. *)
Inductive outcome (A : Type) : Type :=
| Fulfilled (value : A)
| Rejected (message : string).
Arguments Fulfilled {A} value.
Arguments Rejected {A} message.

(** The row [getCachedPoster] resolves to on a hit; [poster_url] is the
    URL [setCachedPoster] stored. *)
Record CachedPoster : Type := { poster_url : string }.

(** The [response] of [axios.head]. *)
Record HeadResponse : Type := { status : Z }.

(** The body posted to [/cache-rated-poster] and [response.data] of the
    reply. *)
Record RenderRequest : Type :=
  { posterUrl : string; rating : string; contentId : string }.
Record RenderData : Type := { success : bool; url : option string }.

(** The reply of the [external_ids] endpoint. *)
Record ExternalIds : Type := { imdb_id : option string }.

(** A row of the [genres] table as selected by [getGenreName]. *)
Record GenreRow : Type := { genre_name : option string }.

Inductive sql_value : Type :=
| SqlNumber (z : Z)
| SqlText (s : string).

Inductive level : Type := debug | warn | error.

(** The calls this module awaits, indexed by what they resolve to. *)
Inductive call : Type -> Type :=
| getCachedPoster (posterId : string) : call (option CachedPoster)
| setCachedPoster (posterId poster : string) : call unit
| axios_head (target : string) : call HeadResponse
| cloudStorage_getPosterUrl (key : string) : call (option string)
| axios_post (target : string) (body : RenderRequest) : call RenderData
| fanart_request (tmdbId : Z) (language fanartApiKey : string)
    : call (option string)
| makeRequest (target tmdbApiKey : string) : call ExternalIds
| pool_query (text : string) (values : list sql_value) : call (list GenreRow)
| log (l : level) (message : string) : call unit.

(** ** Call trees *)

Inductive prog (A : Type) : Type :=
| Ret (a : A)
| Vis {X : Type} (c : call X) (k : outcome X -> prog A).
Arguments Ret {A} a.
Arguments Vis {A X} c k.

Fixpoint bind {A B : Type} (p : prog A) (f : A -> prog B) : prog B :=
  match p with
  | Ret a => f a
  | Vis c k => Vis c (fun o => bind (k o) f)
  end.

(** An async function: a call tree that ends fulfilled or rejected. *)
Definition async (A : Type) : Type := prog (outcome A).

Definition ret {A : Type} (a : A) : async A := Ret (Fulfilled a).
Definition throw {A : Type} (message : string) : async A :=
  Ret (Rejected message).

(** [const x = await p; k x]: a rejection leaves the enclosing block. *)
Definition await_then {A B : Type} (p : async A) (k : A -> async B) : async B :=
  bind p (fun o =>
    match o with
    | Fulfilled a => k a
    | Rejected message => Ret (Rejected message)
    end).

(** [try { p } catch (error) { h error.message }]. *)
Definition try_catch {A : Type} (p : async A) (h : string -> async A) : async A :=
  bind p (fun o =>
    match o with
    | Fulfilled a => Ret (Fulfilled a)
    | Rejected message => h message
    end).

Definition perform {X : Type} (c : call X) : async X := Vis c Ret.

(** The logger is fire-and-forget: whatever it settles to is ignored. *)
Definition log_ (l : level) (message : string) : async unit :=
  Vis (log l message) (fun _ => Ret (Fulfilled tt)).

Declare Scope async_scope.
Delimit Scope async_scope with async.
Notation "'let*' x := p 'in' k" := (await_then p (fun x => k))
  (at level 10, x name, p at level 100, k at level 200) : async_scope.
Notation "'do*' p 'in' k" := (await_then p (fun _ => k))
  (at level 10, p at level 100, k at level 200) : async_scope.
Local Open Scope async_scope.

(** [Promise.all]: every callback is started and runs to its end, also
    when another one rejects; the result is the list of values in list
    order, or a rejection when some callback rejected (here the first in
    list order). *)
Fixpoint settle_all {A : Type} (ps : list (async A)) : prog (list (outcome A)) :=
  match ps with
  | [] => Ret []
  | p :: ps' => bind p (fun o => bind (settle_all ps') (fun os => Ret (o :: os)))
  end.

Fixpoint all_fulfilled {A : Type} (os : list (outcome A)) : outcome (list A) :=
  match os with
  | [] => Fulfilled []
  | Fulfilled a :: os' =>
      match all_fulfilled os' with
      | Fulfilled l => Fulfilled (a :: l)
      | Rejected message => Rejected message
      end
  | Rejected message :: _ => Rejected message
  end.

Definition Promise_all {A : Type} (ps : list (async A)) : async (list A) :=
  bind (settle_all ps) (fun os => Ret (all_fulfilled os)).

(** ** Running a call tree *)

Inductive event : Type :=
| Ev {X : Type} (c : call X) (o : outcome X).

Section Run.
Context {W : Type}.
Variable handle : forall X, call X -> W -> outcome X * W.

Fixpoint run {A : Type} (p : prog A) (w : W) : A * W * list event :=
  match p with
  | Ret a => (a, w, [])
  | Vis c k =>
      let '(o, w1) := handle _ c w in
      let '(a, w2, t) := run (k o) w1 in
      (a, w2, Ev c o :: t)
  end.

Definition result_of {A : Type} (p : prog A) (w : W) : A := (run p w).1.1.
Definition world_of {A : Type} (p : prog A) (w : W) : W := (run p w).1.2.
Definition trace_of {A : Type} (p : prog A) (w : W) : list event := (run p w).2.

End Run.

(** ** Data model *)

(** The object [getPosterUrl] reads: [{ id, poster_path, vote_average }]. *)
Module Poster.
Record content : Type :=
  { id : Z; poster_path : option string; vote_average : option number }.
End Poster.

(** A catalog item as returned by the media database. *)
Module Item.
Record t : Type :=
  { id : Z;
    poster_path : option string;
    vote_average : option number;
    backdrop_path : option string;
    title : option string;
    name : option string;
    overview : option string;
    release_date : option string;
    first_air_date : option string;
    genre_ids : option (list Z) }.
End Item.

Record Link : Type :=
  { link_name : string; category : string; link_url : string }.

(** The record [buildMetas] returns per item; [null] and [undefined] are
    [None], and [defaultVideoId] is the one field of [behaviorHints]. *)
Module Meta.
Record t : Type :=
  { id : string;
    type : string;
    name : option string;
    poster : option string;
    background : option string;
    logo : option string;
    description : option string;
    releaseInfo : string;
    imdbRating : option string;
    genres : list string;
    links : option (list Link);
    defaultVideoId : string }.
End Meta.

(** [content.vote_average ? ... : ...]: the test on the optional number. *)
Definition rated (vote_average : option number) : option number :=
  match vote_average with
  | Some x => if Number.truthy x then Some x else None
  | None => None
  end.

(** [array.filter(Boolean)] on names and on records. *)
Definition filter_Boolean (l : list (option string)) : list string :=
  omap (fun v => if Js.truthy v then v else None) l.

Definition filter_records {A : Type} (l : list (option A)) : list A :=
  omap (fun v => v) l.

(** ** The module *)

Section Catalog.

(** [process.env.BASE_URL] when the module is loaded. *)
Variable BASE_URL : option string.

Definition baseUrl : string := Js.or_else BASE_URL "http://localhost:7000".

Definition getRpdbPoster (type : string) (id : Z) (language rpdbkey : string)
  : string :=
  let tier := Js.split_dash_0 rpdbkey in
  let lang := Js.split_dash_0 language in
  let baseUrl := "https://api.ratingposterdb.com/" +:+ rpdbkey
                 +:+ "/tmdb/poster-default/" +:+ type +:+ "-" +:+ pretty id
                 +:+ ".jpg?fallback=true" in
  if String.eqb tier "t0" || String.eqb tier "t1" then baseUrl
  else baseUrl +:+ "&lang=" +:+ lang.

Definition tmdbFallbackUrl (content : Poster.content) : string :=
  "https://image.tmdb.org/t/p/w500" +:+ default "" (Poster.poster_path content).

(** [vote_average ? parseFloat(vote_average).toFixed(1) : 'NR']. *)
Definition posterRating (content : Poster.content) : string :=
  match rated (Poster.vote_average content) with
  | Some x => Number.toFixed1 (Number.parseFloat x)
  | None => "NR"
  end.

Definition cloudKey (content : Poster.content) : string :=
  pretty (Poster.id content) +:+ "-" +:+ posterRating content.

(** The rated-poster tiers of [getPosterUrl]: cloud store, then the
    render service, then the raw image. *)
Definition ratedPoster (content : Poster.content) : async (option string) :=
  let tmdbFallbackUrl := tmdbFallbackUrl content in
  let rating := posterRating content in
  let contentId := cloudKey content in
  try_catch
    (let* cloudUrl := perform (cloudStorage_getPosterUrl contentId) in
     if Js.truthy cloudUrl then
       do* log_ debug ("Using existing cloud poster for " +:+ contentId) in
       ret cloudUrl
     else
       try_catch
         (let* data := perform (axios_post (baseUrl +:+ "/cache-rated-poster")
                          {| posterUrl := tmdbFallbackUrl;
                             rating := rating;
                             contentId := contentId |}) in
          if success data && Js.truthy (url data) then
            do* log_ debug ("Created new cloud poster for " +:+ contentId) in
            ret (url data)
          else ret (Some tmdbFallbackUrl))
         (fun message =>
            do* log_ error ("Failed to create/upload rated poster for "
                            +:+ contentId +:+ ": " +:+ message) in
            ret (Some tmdbFallbackUrl)))
    (fun message =>
       do* log_ error ("Error handling poster for " +:+ contentId +:+ ": "
                       +:+ message) in
       ret (Some tmdbFallbackUrl)).

Definition getPosterUrl (content : Poster.content)
    (catalogType language : string) (rpdbApiKey : option string)
  : async (option string) :=
  if negb (Js.truthy (Poster.poster_path content)) then ret None
  else if Js.truthy rpdbApiKey then
    let posterId := "poster:" +:+ pretty (Poster.id content) in
    let* cachedPoster := perform (getCachedPoster posterId) in
    match cachedPoster with
    | Some row =>
        do* log_ debug ("Using cached poster URL for id " +:+ posterId) in
        ret (Some (poster_url row))
    | None =>
        let rpdbImage := getRpdbPoster catalogType (Poster.id content) language
                           (default "" rpdbApiKey) in
        let* found :=
          try_catch
            (let* response := perform (axios_head rpdbImage) in
             if status response =? 200 then
               do* log_ debug ("RPDB poster found for id " +:+ posterId) in
               do* perform (setCachedPoster posterId rpdbImage) in
               ret true
             else ret false)
            (fun message =>
               do* log_ warn ("Error fetching RPDB poster: " +:+ message
                              +:+ ". Falling back to TMDB poster with rating.") in
               ret false) in
        if found then ret (Some rpdbImage) else ratedPoster content
    end
  else ratedPoster content.

Definition media_type (type : string) : string :=
  if String.eqb type "series" then "tv" else "movie".

Definition getGenreName (genreId : Z) (type language : string)
  : async (option string) :=
  try_catch
    (let* rows := perform (pool_query
        "SELECT genre_name FROM genres WHERE genre_id = $1 AND media_type = $2 AND language = $3"
        [SqlNumber genreId; SqlText (media_type type); SqlText language]) in
     match rows with
     | row :: _ => ret (genre_name row)
     | [] => ret None
     end)
    (fun message => throw message).

(** [getFanartPoster] is imported from [src/api/fanart.js], which is not
    among the sources: [buildMetas] below takes the imported function as
    a parameter.  Two logo clients are given for it. *)


(** Modelled from the spec: [getFanartPoster] of [src/api/fanart.js],
    which is not among the sources.  The design gives the logo client the
    contract "fetchLogo(id, language, key) -> URL | null" and lists a
    logo-service error among the soft failures: logged, never propagated,
    the field degrades to null. *)
Definition fetchLogo (tmdbId : Z) (language fanartApiKey : string)
  : async (option string) :=
  try_catch (perform (fanart_request tmdbId language fanartApiKey))
    (fun message => do* log_ error message in ret None).

Section BuildMetas.

Variable getFanartPoster : Z -> string -> string -> async (option string).
Variables (catalogType language : string).
Variables (rpdbApiKey fanartApiKey : option string).
Variables (addWatchedTraktBtn hideTraktHistory traktUsername : option string).
Variable origin : string.
Variable tmdbApiKey : option string.

Definition external_ids_url (content : Item.t) : string :=
  "https://api.themoviedb.org/3/"
  +:+ (if String.eqb catalogType "series" then "tv" else "movie")
  +:+ "/" +:+ pretty (Item.id content) +:+ "/external_ids".

Definition releaseInfo_of (content : Item.t) : string :=
  let releaseDate :=
    if String.eqb catalogType "movies" then Item.release_date content
    else Item.first_air_date content in
  if Js.truthy releaseDate then Js.split_dash_0 (default "" releaseDate) else "".

Definition links_of (content : Item.t) : list Link :=
  if Js.truthy addWatchedTraktBtn
     && bool_decide (hideTraktHistory = Some "true")
     && Js.truthy traktUsername
  then [ {| link_name := default "" addWatchedTraktBtn;
            category := "Trakt";
            link_url := origin +:+ "/updateWatched/"
                        +:+ default "" traktUsername +:+ "/" +:+ catalogType
                        +:+ "/" +:+ pretty (Item.id content) |} ]
  else [].

(** [vote_average ? parseFloat(vote_average).toFixed(1) : null]. *)
Definition imdbRating_of (content : Item.t) : option string :=
  match rated (Item.vote_average content) with
  | Some x => Some (Number.toFixed1 (Number.parseFloat x))
  | None => None
  end.

(** The body of the per-item [try] block. *)
Definition itemRecord (content : Item.t) : async Meta.t :=
  let* posterUrl :=
    getPosterUrl {| Poster.id := Item.id content;
                    Poster.poster_path := Item.poster_path content;
                    Poster.vote_average := Item.vote_average content |}
                 catalogType language rpdbApiKey in
  let* logo :=
    if Js.truthy fanartApiKey then
      getFanartPoster (Item.id content) language (default "" fanartApiKey)
    else ret None in
  let* imdbId :=
    if Js.truthy tmdbApiKey then
      try_catch
        (let* externalIds := perform (makeRequest (external_ids_url content)
                                        (default "" tmdbApiKey)) in
         ret (imdb_id externalIds))
        (fun message =>
           do* log_ error ("Error fetching external IDs for TMDB ID "
                           +:+ pretty (Item.id content) +:+ ": " +:+ message) in
           ret None)
    else ret None in
  let releaseInfo := releaseInfo_of content in
  let links := links_of content in
  let metaId := Js.or_else imdbId ("tmdb:" +:+ pretty (Item.id content)) in
  let imdbRating := imdbRating_of content in
  let* genres :=
    match Item.genre_ids content with
    | Some genre_ids =>
        let* genres :=
          Promise_all (map (fun genreId =>
            let* genreName := getGenreName genreId catalogType language in
            ret genreName) genre_ids) in
        ret (filter_Boolean genres)
    | None => ret []
    end in
  ret {| Meta.id := metaId;
         Meta.type := if String.eqb catalogType "movies" then "movie" else "series";
         Meta.name := if String.eqb catalogType "movies" then Item.title content
                      else Item.name content;
         Meta.poster := posterUrl;
         Meta.background :=
           if Js.truthy (Item.backdrop_path content) then
             Some ("https://image.tmdb.org/t/p/w1280"
                   +:+ default "" (Item.backdrop_path content))
           else None;
         Meta.logo := Js.or_null logo;
         Meta.description := Item.overview content;
         Meta.releaseInfo := releaseInfo;
         Meta.imdbRating := imdbRating;
         Meta.genres := genres;
         Meta.links := match links with [] => None | _ => Some links end;
         Meta.defaultVideoId :=
           Js.or_else imdbId ("tmdb:" +:+ pretty (Item.id content)) |}.

(** The callback mapped over the batch: the record, or [null] when the
    [try] block threw. *)
Definition processItem (content : Item.t) : async (option Meta.t) :=
  try_catch
    (let* meta := itemRecord content in ret (Some meta))
    (fun message =>
       do* log_ error ("Error processing content item "
                       +:+ pretty (Item.id content) +:+ ": " +:+ message) in
       ret None).

Definition buildMetas (filteredResults : list Item.t) : async (list Meta.t) :=
  try_catch
    (let* results := Promise_all (map processItem filteredResults) in
     ret (filter_records results))
    (fun message =>
       do* log_ error ("Error in buildMetas: " +:+ message) in
       throw message).

End BuildMetas.

End Catalog.

(** ** The module: catalog ids and configuration *)

(** [s] without the prefix [p], when it has it. *)
Fixpoint strip_prefix (p s : string) : option string :=
  match p, s with
  | EmptyString, _ => Some s
  | String a p', String b s' =>
      if Ascii.eqb a b then strip_prefix p' s' else None
  | String _ _, EmptyString => None
  end.

(** The class [\d]: the characters [0] to [9]. *)
Definition is_digit (c : ascii) : bool :=
  (48 <=? N_of_ascii c)%N && (N_of_ascii c <=? 57)%N.

Fixpoint all_digits (s : string) : bool :=
  match s with
  | EmptyString => true
  | String c s' => is_digit c && all_digits s'
  end.

(** The integer a string of decimal digits denotes. *)
Fixpoint digits_value (acc : Z) (s : string) : Z :=
  match s with
  | EmptyString => acc
  | String c s' => digits_value (10 * acc + (Z.of_N (N_of_ascii c) - 48)) s'
  end.

(** The Number for an integer: the integer itself below [2^53], else the
    nearest double, ties to the even mantissa, and an infinity from
    [2^1024 - 2^970] on.  (For more than 20 significant digits the
    language lets an engine round from the first 20 only.) *)
Definition integer_to_number (n : Z) : number :=
  let a := Z.abs n in
  if a <? 2 ^ 53 then Finite n 0
  else
    let k := Z.log2 a - 52 in
    let q := a / 2 ^ k in
    let r := a mod 2 ^ k in
    let half := 2 ^ (k - 1) in
    let q1 := if (half <? r) || ((r =? half) && Z.odd q) then q + 1 else q in
    let '(q2, k2) := if q1 =? 2 ^ 53 then (2 ^ 52, k + 1) else (q1, k) in
    if 971 <? k2 then Infinity (n <? 0)
    else Finite (if n <? 0 then - q2 else q2) k2.

(** [parseInt(digits, 10)] on a non-empty string of decimal digits. *)
Definition parseInt_digits (digits : string) : number :=
  integer_to_number (digits_value 0 digits).

(** The first alternative that matches, in the order the matcher tries
    them. *)
Fixpoint first_match {A B : Type} (f : A -> option B) (alternatives : list A)
  : option B :=
  match alternatives with
  | [] => None
  | a :: rest =>
      match f a with
      | Some b => Some b
      | None => first_match f rest
      end
  end.

(** [id.match(/^tmdb-discover-(movies|series)(-new|-popular)?-(\d+)$/)]:
    groups 1 and 3 of the match.  The optional group is tried with
    [-new], then [-popular], then left out. *)
Definition match_catalog_id (id : string) : option (string * string) :=
  match strip_prefix "tmdb-discover-" id with
  | None => None
  | Some after_prefix =>
      first_match (fun kind =>
        match strip_prefix kind after_prefix with
        | None => None
        | Some after_kind =>
            first_match (fun variant =>
              match strip_prefix variant after_kind with
              | None => None
              | Some after_variant =>
                  match strip_prefix "-" after_variant with
                  | Some (String d ds) =>
                      if all_digits (String d ds) then Some (kind, String d ds)
                      else None
                  | _ => None
                  end
              end) ["-new"; "-popular"; ""]
        end) ["movies"; "series"]
  end.

Record CatalogInfo : Type := { catalogType : string; providerId : number }.

(** A synchronous function: it returns, or throws an error with a
    message. *)
Definition extractCatalogInfo (id : string) : outcome CatalogInfo :=
  match match_catalog_id id with
  | None => Rejected "Invalid catalog id"
  | Some (kind, digits) =>
      Fulfilled {| catalogType := kind; providerId := parseInt_digits digits |}
  end.

(** [parseConfigParameters] over the two functions of the language it
    calls: [decodeURIComponent] and [JSON.parse] each return a value or
    throw; [empty_object] is [{}]. *)
Section ParseConfig.
Context {Config : Type}.
Variable empty_object : Config.
Variable decodeURIComponent : string -> outcome string.
Variable JSON_parse : string -> outcome Config.

Definition parseConfigParameters (configParameters : option string)
  : async Config :=
  let parsedConfig := empty_object in
  if Js.truthy configParameters then
    try_catch
      (match decodeURIComponent (default "" configParameters) with
       | Fulfilled decoded =>
           match JSON_parse decoded with
           | Fulfilled parsed => ret parsed
           | Rejected message => throw message
           end
       | Rejected message => throw message
       end)
      (fun message =>
         do* log_ error ("Error parsing configParameters: " +:+ message) in
         ret parsedConfig)
  else ret parsedConfig.

End ParseConfig.

(** ** Specification vocabulary *)

(** [post p P]: whatever the collaborators answer, the calls [p] makes
    and the value it ends with satisfy [P]. *)
Fixpoint post {A : Type} (p : prog A) (P : list event -> A -> Prop) : Prop :=
  match p with
  | Ret a => P [] a
  | Vis c k => forall o, post (k o) (fun t a => P (Ev c o :: t) a)
  end.

(** [seg] is the first dash-delimited segment of [s]. *)
Definition first_segment_of (seg s : string) : Prop :=
  (forall c, In c (list_ascii_of_string seg) -> c <> "-"%char)
  /\ (s = seg \/ exists rest, s = seg +:+ String "-" rest).

(** The paid-service URL without a language parameter. *)
Definition rpdb_base (type : string) (id : Z) (rpdbkey : string) : string :=
  "https://api.ratingposterdb.com/" +:+ rpdbkey +:+ "/tmdb/poster-default/"
  +:+ type +:+ "-" +:+ pretty id +:+ ".jpg?fallback=true".

(** The object [buildMetas] hands to [getPosterUrl]. *)
Definition poster_part (content : Item.t) : Poster.content :=
  {| Poster.id := Item.id content;
     Poster.poster_path := Item.poster_path content;
     Poster.vote_average := Item.vote_average content |}.

(** [n / 10] is the one-decimal number nearest to [|m * 2^e|], the upper
    one on a tie: [n - 1/2 <= 10 |m * 2^e| < n + 1/2], with the magnitude
    written as the fraction [num / den]. *)
Definition nearest_tenth (n m e : Z) : Prop :=
  let num := Z.abs m * 2 ^ Z.max 0 e in
  let den := 2 ^ Z.max 0 (- e) in
  2 * n * den - den <= 20 * num < 2 * n * den + den.

(** *** Events of a trace *)

Definition is_probe (e : event) : bool :=
  match e with
  | Ev (axios_head _) _ => true
  | _ => false
  end.

Definition is_render (e : event) : bool :=
  match e with
  | Ev (axios_post _ _) _ => true
  | _ => false
  end.

Definition is_cache_access (e : event) : bool :=
  match e with
  | Ev (getCachedPoster _) _ | Ev (setCachedPoster _ _) _ => true
  | _ => false
  end.

(** The existence probe came back with status 200. *)
Definition probe_ok (e : event) : bool :=
  match e with
  | Ev c o =>
      match c in call X return outcome X -> bool with
      | axios_head _ => fun o =>
          match o with
          | Fulfilled response => status response =? 200
          | Rejected _ => false
          end
      | _ => fun _ => false
      end o
  end.

(** The existence probe came back with a status other than 200, or not
    at all. *)
Definition probe_failed (e : event) : bool :=
  match e with
  | Ev c o =>
      match c in call X return outcome X -> bool with
      | axios_head _ => fun o =>
          match o with
          | Fulfilled response => negb (status response =? 200)
          | Rejected _ => true
          end
      | _ => fun _ => false
      end o
  end.

(** The cloud store answered that it holds no poster. *)
Definition cloud_miss (e : event) : bool :=
  match e with
  | Ev c o =>
      match c in call X return outcome X -> bool with
      | cloudStorage_getPosterUrl _ => fun o =>
          match o with
          | Fulfilled cloudUrl => negb (Js.truthy cloudUrl)
          | Rejected _ => false
          end
      | _ => fun _ => false
      end o
  end.

(** The cloud store answered [key] with the poster [stored]. *)
Definition cloud_hit (key stored : string) (e : event) : bool :=
  match e with
  | Ev c o =>
      match c in call X return outcome X -> bool with
      | cloudStorage_getPosterUrl k => fun o =>
          match o with
          | Fulfilled cloudUrl =>
              String.eqb k key && bool_decide (cloudUrl = Some stored)
              && Js.truthy cloudUrl
          | Rejected _ => false
          end
      | _ => fun _ => false
      end o
  end.

(** The render-creation call failed: no reply, or a reply that does not
    report success together with a URL. *)
Definition render_failed (e : event) : bool :=
  match e with
  | Ev c o =>
      match c in call X return outcome X -> bool with
      | axios_post _ _ => fun o =>
          match o with
          | Fulfilled data => negb (success data && Js.truthy (url data))
          | Rejected _ => true
          end
      | _ => fun _ => false
      end o
  end.

(** The cloud key named by a call to the cloud store or to the render
    service. *)
Definition cloud_key_of (e : event) : option string :=
  match e with
  | Ev (cloudStorage_getPosterUrl key) _ => Some key
  | Ev (axios_post _ body) _ => Some (contentId body)
  | _ => None
  end.

Definition cloud_keys (t : list event) : list string := omap cloud_key_of t.

(** The logo request was rejected. *)
Definition logo_failed (e : event) : bool :=
  match e with
  | Ev (fanart_request _ _ _) (Rejected _) => true
  | _ => false
  end.


(** A rejected call that no [try] of the per-item block guards: the cache
    read and the genre queries.  The imported logo client is awaited
    outside a [try] as well; its rejection is [logo_failed]. *)
Definition unguarded_rejection (e : event) : bool :=
  match e with
  | Ev (getCachedPoster _) (Rejected _) | Ev (pool_query _ _) (Rejected _) => true
  | _ => false
  end.

(** The genre queries of a trace, in the order they were issued, each
    with its first parameter and what it resolved to. *)
Definition genre_lookup (e : event)
  : option (option sql_value * outcome (list GenreRow)) :=
  match e with
  | Ev c o =>
      match c in call X return outcome X -> option _ with
      | pool_query _ values => fun o => Some (head values, o)
      | _ => fun _ => None
      end o
  end.

Definition genre_lookups (t : list event)
  : list (option sql_value * outcome (list GenreRow)) :=
  omap genre_lookup t.

Definition is_rejected {A : Type} (o : outcome A) : bool :=
  match o with
  | Rejected _ => true
  | Fulfilled _ => false
  end.

(** What [getGenreName] makes of the answer to its query. *)
Definition first_genre_name (o : outcome (list GenreRow))
  : outcome (option string) :=
  match o with
  | Fulfilled (row :: _) => Fulfilled (genre_name row)
  | Fulfilled [] => Fulfilled None
  | Rejected message => Rejected message
  end.

(** The name a genre query resolved to: the truthy [genre_name] of its
    first row. *)
Definition resolved_name (o : outcome (list GenreRow)) : option string :=
  match o with
  | Fulfilled (row :: _) => Js.or_null (genre_name row)
  | _ => None
  end.

(** *** Items and batches *)

(** The values of the fulfilled outcomes, in order. *)
Definition fulfilled_values {A : Type} (os : list (outcome A)) : list A :=
  omap (fun o => match o with
                 | Fulfilled a => Some a
                 | Rejected _ => None
                 end) os.

(** The value of the per-item callback for an outcome of its [try] block. *)
Definition record_or_null (o : outcome Meta.t) : option Meta.t :=
  match o with
  | Fulfilled meta => Some meta
  | Rejected _ => None
  end.

(** What holds of the trace [t] and the outcome [r] of one item's [try]
    block: a rejection comes from an unguarded call; a record has a null
    logo when the logo service failed, and its genres are the names the
    genre queries resolved to, one query per genre id, in order. *)
Definition item_post (content : Item.t) (t : list event) (r : outcome Meta.t)
  : Prop :=
  ((exists message, r = Rejected message) ->
   existsb unguarded_rejection t = true)
  /\ forall meta, r = Fulfilled meta ->
       (existsb logo_failed t = true -> Meta.logo meta = None)
       /\ map fst (genre_lookups t)
          = map (fun genreId => Some (SqlNumber genreId))
                (default [] (Item.genre_ids content))
       /\ Forall (fun l => is_rejected l.2 = false) (genre_lookups t)
       /\ Meta.genres meta = omap (fun l => resolved_name l.2) (genre_lookups t).

(** What holds of the trace [t] and the outcome [r] of the per-item
    callback: it never rejects; [null] means an unguarded call was
    rejected; a record is as [item_post] says. *)
Definition callback_post (content : Item.t) (t : list event)
    (r : outcome (option Meta.t)) : Prop :=
  (exists v, r = Fulfilled v)
  /\ (r = Fulfilled None -> existsb unguarded_rejection t = true)
  /\ forall meta, r = Fulfilled (Some meta) ->
       (existsb logo_failed t = true -> Meta.logo meta = None)
       /\ map fst (genre_lookups t)
          = map (fun genreId => Some (SqlNumber genreId))
                (default [] (Item.genre_ids content))
       /\ Forall (fun l => is_rejected l.2 = false) (genre_lookups t)
       /\ Meta.genres meta = omap (fun l => resolved_name l.2) (genre_lookups t).

(** The outcome of each item's [try] block when the batch runs under
    [handle] from the world [w], callbacks in list order. *)
Section Outcomes.
Context {W : Type} (handle : forall X, call X -> W -> outcome X * W).
Variable BASE_URL : option string.
Variable getFanartPoster : Z -> string -> string -> async (option string).
Variables (catalogType language : string).
Variables (rpdbApiKey fanartApiKey : option string).
Variables (addWatchedTraktBtn hideTraktHistory traktUsername : option string).
Variables (origin : string) (tmdbApiKey : option string).

Fixpoint item_outcomes (items : list Item.t) (w : W) : list (outcome Meta.t) :=
  match items with
  | [] => []
  | content :: rest =>
      result_of handle
        (itemRecord BASE_URL getFanartPoster catalogType language rpdbApiKey fanartApiKey
           addWatchedTraktBtn hideTraktHistory traktUsername origin tmdbApiKey
           content) w
      :: item_outcomes rest
           (world_of handle
              (processItem BASE_URL getFanartPoster catalogType language rpdbApiKey
                 fanartApiKey addWatchedTraktBtn hideTraktHistory
                 traktUsername origin tmdbApiKey content) w)
  end.

End Outcomes.

(** *** Worlds *)

(** Modelled from the spec: the Poster Cache behind [getCachedPoster] and
    [setCachedPoster] of [src/helpers/cache.js], which is not among the
    sources.  The design describes it as a key-value cache with
    "get(key) -> URL|null; set(key, URL) -> void", keyed by
    [poster:<contentId>], holding the poster URL, with no expiry.  Every
    other call is passed to the handler [outside]. *)
Definition with_cache {S : Type}
    (outside : forall X, call X -> S -> outcome X * S)
    (X : Type) (c : call X) (w : gmap string string * S)
  : outcome X * (gmap string string * S) :=
  match c in call X return outcome X * (gmap string string * S) with
  | getCachedPoster posterId =>
      (Fulfilled ((fun u => {| poster_url := u |}) <$> (w.1 !! posterId)), w)
  | setCachedPoster posterId poster =>
      (Fulfilled tt, (<[posterId := poster]> w.1, w.2))
  | c' =>
      let '(o, s) := outside _ c' w.2 in (o, (w.1, s))
  end.

(** A world that gives each collaborator one fixed answer. *)
Record Answers : Type :=
  { cached : outcome (option CachedPoster);
    probe : outcome HeadResponse;
    cloud : outcome (option string);
    render : outcome RenderData;
    logo_service : outcome (option string);
    external_ids : outcome ExternalIds;
    genre_rows : option sql_value -> outcome (list GenreRow) }.

Definition scripted (X : Type) (c : call X) (a : Answers) : outcome X * Answers :=
  (match c in call X return outcome X with
   | getCachedPoster _ => cached a
   | setCachedPoster _ _ => Fulfilled tt
   | axios_head _ => probe a
   | cloudStorage_getPosterUrl _ => cloud a
   | axios_post _ _ => render a
   | fanart_request _ _ _ => logo_service a
   | makeRequest _ _ => external_ids a
   | pool_query _ values => genre_rows a (head values)
   | log _ _ => Fulfilled tt
   end, a).

(** Everything fails: no cache row, probe 404, cloud store empty, render
    service down, no logo, no external ids, no genre rows. *)
Definition bleak : Answers :=
  {| cached := Fulfilled None;
     probe := Fulfilled {| status := 404 |};
     cloud := Fulfilled None;
     render := Rejected "ECONNREFUSED";
     logo_service := Rejected "fanart down";
     external_ids := Rejected "tmdb down";
     genre_rows := fun _ => Fulfilled [] |}.

(** The probe answers 200; the later tiers are not reached. *)
Definition probe_200 : Answers :=
  {| cached := Fulfilled None;
     probe := Fulfilled {| status := 200 |};
     cloud := Rejected "unused";
     render := Rejected "unused";
     logo_service := Fulfilled None;
     external_ids := Rejected "unused";
     genre_rows := fun _ => Fulfilled [] |}.

(** Genre rows for the sample item: ids 1 and 3 have a name, id 2 has no
    row. *)
Definition genre_table (v : option sql_value) : outcome (list GenreRow) :=
  match v with
  | Some (SqlNumber 1) => Fulfilled [ {| genre_name := Some "Action" |} ]
  | Some (SqlNumber 3) => Fulfilled [ {| genre_name := Some "Science Fiction" |} ]
  | _ => Fulfilled []
  end.

(** The same table behind a database that fails on id 2. *)
Definition genre_table_failing (v : option sql_value) : outcome (list GenreRow) :=
  match v with
  | Some (SqlNumber 2) => Rejected "connection terminated"
  | _ => genre_table v
  end.

Definition with_genres (rows : option sql_value -> outcome (list GenreRow))
  : Answers :=
  {| cached := cached bleak; probe := probe bleak; cloud := cloud bleak;
     render := render bleak; logo_service := logo_service bleak;
     external_ids := external_ids bleak; genre_rows := rows |}.

(** *** Sample items *)

Definition matrix : Item.t :=
  {| Item.id := 603;
     Item.poster_path := Some "/matrix.jpg";
     Item.vote_average := Some (Finite 8631148685855556 (-50));
     Item.backdrop_path := None;
     Item.title := Some "The Matrix";
     Item.name := None;
     Item.overview := Some "A hacker learns the truth.";
     Item.release_date := Some "1999-03-31";
     Item.first_air_date := None;
     Item.genre_ids := Some [1; 2; 3] |}.

Definition unrated : Item.t :=
  {| Item.id := 11;
     Item.poster_path := Some "/unrated.jpg";
     Item.vote_average := None;
     Item.backdrop_path := None;
     Item.title := Some "Unrated";
     Item.name := None;
     Item.overview := None;
     Item.release_date := None;
     Item.first_air_date := None;
     Item.genre_ids := None |}.

Definition zero_rated : Item.t :=
  {| Item.id := 42;
     Item.poster_path := Some "/zero.jpg";
     Item.vote_average := Some (Finite 0 0);
     Item.backdrop_path := None;
     Item.title := Some "Zero";
     Item.name := None;
     Item.overview := None;
     Item.release_date := None;
     Item.first_air_date := None;
     Item.genre_ids := None |}.

(** A batch of three items; the genre of the second is the one the
    failing database rejects. *)
Definition numbered (n : Z) : Item.t :=
  {| Item.id := n;
     Item.poster_path := None;
     Item.vote_average := None;
     Item.backdrop_path := None;
     Item.title := Some "Title";
     Item.name := None;
     Item.overview := None;
     Item.release_date := None;
     Item.first_air_date := None;
     Item.genre_ids := Some [n] |}.

Definition three_items : list Item.t := [numbered 1; numbered 2; numbered 3].

(** *** Catalog ids *)

(** The ids [extractCatalogInfo] is written for: the fixed prefix, a
    kind, an optional variant, a dash and a non-empty run of digits. *)
Definition catalog_id (kind variant digits : string) : string :=
  "tmdb-discover-" +:+ kind +:+ variant +:+ "-" +:+ digits.

Definition well_formed_catalog_id (id kind digits : string) : Prop :=
  exists variant,
    id = catalog_id kind variant digits
    /\ (kind = "movies" \/ kind = "series")
    /\ (variant = "-new" \/ variant = "-popular" \/ variant = "")
    /\ digits <> ""
    /\ all_digits digits = true.

(** *** Configuration parsing *)

(** The message of the error [decodeURIComponent] or [JSON.parse] throws
    on [text], if one of them does. *)
Definition config_failure {Config : Type}
    (decodeURIComponent : string -> outcome string)
    (JSON_parse : string -> outcome Config) (text : string) : option string :=
  match decodeURIComponent text with
  | Rejected message => Some message
  | Fulfilled decoded =>
      match JSON_parse decoded with
      | Rejected message => Some message
      | Fulfilled _ => None
      end
  end.

(** A decoder that accepts text without a percent sign, and a parser
    that knows two documents. *)
Definition plain_decode (text : string) : outcome string :=
  if existsb (fun c => Ascii.eqb c "%") (list_ascii_of_string text)
  then Rejected "URI malformed" else Fulfilled text.

Definition tiny_parse (text : string) : outcome (list Z) :=
  if String.eqb text "[]" then Fulfilled []
  else if String.eqb text "[7]" then Fulfilled [7]
  else Rejected "Unexpected token".

(** *** More events *)

Definition is_cache_read (e : event) : bool :=
  match e with
  | Ev (getCachedPoster _) _ => true
  | _ => false
  end.

Definition is_cache_write (e : event) : bool :=
  match e with
  | Ev (setCachedPoster _ _) _ => true
  | _ => false
  end.

Definition is_cloud_query (e : event) : bool :=
  match e with
  | Ev (cloudStorage_getPosterUrl _) _ => true
  | _ => false
  end.

Definition is_logo_request (e : event) : bool :=
  match e with
  | Ev (fanart_request _ _ _) _ => true
  | _ => false
  end.

Definition is_external_ids_request (e : event) : bool :=
  match e with
  | Ev (makeRequest _ _) _ => true
  | _ => false
  end.

(** The cache read was rejected with [message]. *)
Definition read_rejected (message : string) (e : event) : bool :=
  match e with
  | Ev (getCachedPoster _) (Rejected m) => String.eqb m message
  | _ => false
  end.

Definition write_rejected (e : event) : bool :=
  match e with
  | Ev (setCachedPoster _ _) (Rejected _) => true
  | _ => false
  end.

Definition cloud_rejected (e : event) : bool :=
  match e with
  | Ev (cloudStorage_getPosterUrl _) (Rejected _) => true
  | _ => false
  end.

Definition external_ids_failed (e : event) : bool :=
  match e with
  | Ev (makeRequest _ _) (Rejected _) => true
  | _ => false
  end.

(** The render service reported success and the URL [created]. *)
Definition render_created (created : string) (e : event) : bool :=
  match e with
  | Ev c o =>
      match c in call X return outcome X -> bool with
      | axios_post _ _ => fun o =>
          match o with
          | Fulfilled data =>
              success data && Js.truthy (url data)
              && bool_decide (url data = Some created)
          | Rejected _ => false
          end
      | _ => fun _ => false
      end o
  end.

(** The external-ids endpoint answered with the identifier [imdb]. *)
Definition external_id_found (imdb : string) (e : event) : bool :=
  match e with
  | Ev c o =>
      match c in call X return outcome X -> bool with
      | makeRequest _ _ => fun o =>
          match o with
          | Fulfilled ids =>
              Js.truthy (imdb_id ids) && bool_decide (imdb_id ids = Some imdb)
          | Rejected _ => false
          end
      | _ => fun _ => false
      end o
  end.

(** The cache writes of a trace, key and URL, and the render requests,
    target and body. *)
Definition cache_writes (t : list event) : list (string * string) :=
  omap (fun e => match e with
                 | Ev (setCachedPoster posterId poster) _ =>
                     Some (posterId, poster)
                 | _ => None
                 end) t.

Definition render_requests (t : list event) : list (string * RenderRequest) :=
  omap (fun e => match e with
                 | Ev (axios_post target body) _ => Some (target, body)
                 | _ => None
                 end) t.

(** How many events of a trace satisfy [f]. *)
Definition count (f : event -> bool) (t : list event) : nat :=
  length (List.filter f t).

(** *** More worlds *)

(** [scripted], with a poster cache that cannot be written. *)
Definition read_only_cache (X : Type) (c : call X) (a : Answers)
  : outcome X * Answers :=
  match c in call X return outcome X * Answers with
  | setCachedPoster _ _ => (Rejected "read-only transaction", a)
  | c' => scripted _ c' a
  end.

(** The cache read fails. *)
Definition cache_down : Answers :=
  {| cached := Rejected "connection refused";
     probe := probe bleak; cloud := cloud bleak; render := render bleak;
     logo_service := logo_service bleak; external_ids := external_ids bleak;
     genre_rows := genre_rows bleak |}.

(** The cloud store is empty and the render service delivers. *)
Definition rendering : Answers :=
  {| cached := Fulfilled None;
     probe := Rejected "timeout";
     cloud := Fulfilled None;
     render := Fulfilled {| success := true;
                            url := Some "https://cdn.example/new.jpg" |};
     logo_service := Fulfilled None;
     external_ids := Fulfilled {| imdb_id := Some "tt0133093" |};
     genre_rows := genre_table |}.

(** The cloud store fails. *)
Definition cloud_down : Answers :=
  {| cached := Fulfilled None;
     probe := Rejected "timeout";
     cloud := Rejected "bucket unavailable";
     render := render rendering;
     logo_service := Fulfilled None;
     external_ids := external_ids rendering;
     genre_rows := genre_table |}.

(** *** Kinds of calls *)

Inductive call_kind : Type :=
| CacheRead | CacheWrite | Probe | CloudQuery | Render
| LogoRequest | ExternalIdsRequest | GenreQuery | LogLine.

Definition kind_of (e : event) : call_kind :=
  match e with
  | Ev (getCachedPoster _) _ => CacheRead
  | Ev (setCachedPoster _ _) _ => CacheWrite
  | Ev (axios_head _) _ => Probe
  | Ev (cloudStorage_getPosterUrl _) _ => CloudQuery
  | Ev (axios_post _ _) _ => Render
  | Ev (fanart_request _ _ _) _ => LogoRequest
  | Ev (makeRequest _ _) _ => ExternalIdsRequest
  | Ev (pool_query _ _) _ => GenreQuery
  | Ev (log _ _) _ => LogLine
  end.

Definition kind_eqb (k1 k2 : call_kind) : bool :=
  match k1, k2 with
  | CacheRead, CacheRead | CacheWrite, CacheWrite | Probe, Probe
  | CloudQuery, CloudQuery | Render, Render | LogoRequest, LogoRequest
  | ExternalIdsRequest, ExternalIdsRequest | GenreQuery, GenreQuery
  | LogLine, LogLine => true
  | _, _ => false
  end.

Definition member (k : call_kind) (ks : list call_kind) : bool :=
  existsb (kind_eqb k) ks.

(** Every call of the trace is of one of the kinds [ks]. *)
Definition only (ks : list call_kind) (t : list event) : bool :=
  forallb (fun e => member (kind_of e) ks) t.

(** The calls one item may cause, by what is configured: the cloud store,
    the render service and the logger always; cache and probe with a
    paid-service key; the logo service with a logo key; the external-ids
    endpoint with a database key; genre queries for an item that lists
    genres. *)
Definition allowed_kinds (rpdbApiKey fanartApiKey tmdbApiKey : option string)
    (content : Item.t) : list call_kind :=
  [CloudQuery; Render; LogLine]
  ++ (if Js.truthy rpdbApiKey then [CacheRead; Probe; CacheWrite] else [])
  ++ (if Js.truthy fanartApiKey then [LogoRequest] else [])
  ++ (if Js.truthy tmdbApiKey then [ExternalIdsRequest] else [])
  ++ (match Item.genre_ids content with
      | Some (_ :: _) => [GenreQuery]
      | _ => []
      end).

(** The cache read was rejected. *)
Definition read_failed (e : event) : bool :=
  match e with
  | Ev (getCachedPoster _) (Rejected _) => true
  | _ => false
  end.

(** The external-ids endpoint failed, or answered without an identifier. *)
Definition external_id_missing (e : event) : bool :=
  match e with
  | Ev c o =>
      match c in call X return outcome X -> bool with
      | makeRequest _ _ => fun o =>
          match o with
          | Fulfilled ids => negb (Js.truthy (imdb_id ids))
          | Rejected _ => true
          end
      | _ => fun _ => false
      end o
  end.

(** *** Pure fields of a record *)

(** The fields of the record that the source computes from the item and
    the configuration alone. *)
Definition pure_fields (meta : Meta.t)
  : string * option string * option string * option string * string
    * option string * option (list Link) :=
  (Meta.type meta, Meta.name meta, Meta.background meta,
   Meta.description meta, Meta.releaseInfo meta, Meta.imdbRating meta,
   Meta.links meta).

(** [links.length > 0 ? links : undefined]. *)
Definition links_field (links : list Link) : option (list Link) :=
  match links with
  | [] => None
  | _ => Some links
  end.

(** The link the source pushes when the button is configured. *)
Definition trakt_link (addWatchedTraktBtn traktUsername origin catalogType
                         : string) (id : Z) : Link :=
  {| link_name := addWatchedTraktBtn;
     category := "Trakt";
     link_url := origin +:+ "/updateWatched/" +:+ traktUsername +:+ "/"
                 +:+ catalogType +:+ "/" +:+ pretty id |}.

(** What holds of the trace [t] and the result [r] of the per-item
    callback, beyond [callback_post]. *)
Definition callback_facts (catalogType : string)
    (rpdbApiKey fanartApiKey addWatchedTraktBtn hideTraktHistory
       traktUsername : option string)
    (origin : string) (tmdbApiKey : option string) (content : Item.t)
    (t : list event) (r : outcome (option Meta.t)) : Prop :=
  only (allowed_kinds rpdbApiKey fanartApiKey tmdbApiKey content) t = true
  /\ (existsb read_failed t = false ->
      map fst (genre_lookups t)
      = map (fun genreId => Some (SqlNumber genreId))
            (default [] (Item.genre_ids content)))
  /\ forall meta, r = Fulfilled (Some meta) ->
       (Meta.poster meta = None
        <-> Js.truthy (Item.poster_path content) = false)
       /\ (forall imdb, existsb (external_id_found imdb) t = true ->
                        Meta.id meta = imdb)
       /\ (existsb external_id_missing t = true ->
           Meta.id meta = "tmdb:" +:+ pretty (Item.id content))
       /\ (Js.truthy tmdbApiKey = false ->
           Meta.id meta = "tmdb:" +:+ pretty (Item.id content))
       /\ Meta.defaultVideoId meta = Meta.id meta
       /\ pure_fields meta
          = (if String.eqb catalogType "movies" then "movie" else "series",
             if String.eqb catalogType "movies" then Item.title content
             else Item.name content,
             if Js.truthy (Item.backdrop_path content)
             then Some ("https://image.tmdb.org/t/p/w1280"
                        +:+ default "" (Item.backdrop_path content))
             else None,
             Item.overview content,
             releaseInfo_of catalogType content,
             imdbRating_of content,
             links_field
               (links_of catalogType addWatchedTraktBtn hideTraktHistory
                  traktUsername origin content)).

(** The keys of the cache reads of a trace. *)
Definition cache_reads (t : list event) : list string :=
  omap (fun e => match e with
                 | Ev (getCachedPoster posterId) _ => Some posterId
                 | _ => None
                 end) t.

(** The cache read found a row holding [poster]. *)
Definition cache_hit (poster : string) (e : event) : bool :=
  match e with
  | Ev c o =>
      match c in call X return outcome X -> bool with
      | getCachedPoster _ => fun o =>
          match o with
          | Fulfilled (Some row) => String.eqb (poster_url row) poster
          | _ => false
          end
      | _ => fun _ => false
      end o
  end.

(** A poster cache that already holds a row. *)
Definition cache_warm : Answers :=
  {| cached := Fulfilled (Some {| poster_url := "https://rpdb.example/603.jpg" |});
     probe := probe bleak; cloud := cloud bleak; render := render bleak;
     logo_service := logo_service bleak; external_ids := external_ids bleak;
     genre_rows := genre_rows bleak |}.

(** * Properties *)

(** ** Call trees *)

Lemma post_mono {A : Type} (p : prog A) (P Q : list event -> A -> Prop) :
  (forall t a, P t a -> Q t a) -> post p P -> post p Q.
Proof.
  revert P Q. induction p as [a | X c k IH]; simpl; intros P Q HPQ Hp.
  - auto.
  - intros o. eapply IH; [| apply Hp]. simpl. auto.
Qed.

Lemma post_bind {A B : Type} (p : prog A) (f : A -> prog B)
    (P : list event -> B -> Prop) :
  post p (fun t1 a => post (f a) (fun t2 b => P (t1 ++ t2) b)) ->
  post (bind p f) P.
Proof.
  revert P. induction p as [a | X c k IH]; simpl; intros P Hp.
  - exact Hp.
  - intros o. apply IH. apply Hp.
Qed.

Lemma post_run {W A : Type} (handle : forall X, call X -> W -> outcome X * W)
    (p : prog A) (P : list event -> A -> Prop) (w : W) :
  post p P -> P (trace_of handle p w) (result_of handle p w).
Proof.
  unfold trace_of, result_of. revert P w.
  induction p as [a | X c k IH]; simpl; intros P w Hp.
  - exact Hp.
  - destruct (handle X c w) as [o w1] eqn:Hh.
    specialize (IH o _ w1 (Hp o)).
    destruct (run handle (k o) w1) as [[a w2] t]. exact IH.
Qed.

Lemma run_bind {W A B : Type} (handle : forall X, call X -> W -> outcome X * W)
    (p : prog A) (f : A -> prog B) (w : W) :
  run handle (bind p f) w =
  let '(a, w1, t1) := run handle p w in
  let '(b, w2, t2) := run handle (f a) w1 in
  (b, w2, t1 ++ t2).
Proof.
  revert w. induction p as [a | X c k IH]; simpl; intros w.
  - destruct (run handle (f a) w) as [[b w2] t2]. reflexivity.
  - destruct (handle X c w) as [o w1]. rewrite IH.
    destruct (run handle (k o) w1) as [[a w2] t1].
    destruct (run handle (f a) w2) as [[b w3] t2]. reflexivity.
Qed.

(** ** Strings *)

Lemma append_String (c : ascii) (s t : string) :
  String c s +:+ t = String c (s +:+ t).
Proof. reflexivity. Qed.

Lemma append_same_l (s t : string) : s +:+ t = s -> t = "".
Proof.
  induction s as [| c s IH]; intros H.
  - exact H.
  - rewrite append_String in H. injection H as H. auto.
Qed.

Lemma split_dash_0_first_segment (s : string) :
  first_segment_of (Js.split_dash_0 s) s.
Proof.
  induction s as [| c s [IHfree IHsplit]]; simpl.
  - split; [intros c [] | left; reflexivity].
  - destruct (Ascii.eqb_spec c "-") as [-> | Hc]; simpl.
    + split; [intros c [] | right; exists s; reflexivity].
    + split.
      * intros c' [<- | Hin]; auto.
      * destruct IHsplit as [Heq | [rest Heq]].
        -- left. congruence.
        -- right. exists rest. rewrite append_String. congruence.
Qed.

Lemma getRpdbPoster_cases (type : string) (id : Z) (language rpdbkey : string) :
  getRpdbPoster type id language rpdbkey =
  if bool_decide (Js.split_dash_0 rpdbkey = "t0" \/ Js.split_dash_0 rpdbkey = "t1")
  then rpdb_base type id rpdbkey
  else rpdb_base type id rpdbkey +:+ "&lang=" +:+ Js.split_dash_0 language.
Proof.
  unfold getRpdbPoster, rpdb_base.
  destruct (String.eqb_spec (Js.split_dash_0 rpdbkey) "t0") as [H0 | H0];
    destruct (String.eqb_spec (Js.split_dash_0 rpdbkey) "t1") as [H1 | H1];
    simpl; case_bool_decide as Hd; try reflexivity; try tauto.
  all: exfalso; tauto.
Qed.

(** ** Generic facts about [await] and [try] *)

Lemma post_any {A : Type} (p : prog A) : post p (fun _ _ => True).
Proof. induction p as [a | X c k IH]; simpl; auto. Qed.

Lemma post_await_then {A B : Type} (p : async A) (k : A -> async B)
    (P : list event -> outcome B -> Prop) :
  post p (fun t1 o =>
            match o with
            | Fulfilled a => post (k a) (fun t2 b => P (t1 ++ t2) b)
            | Rejected message => P (t1 ++ []) (Rejected message)
            end) ->
  post (await_then p k) P.
Proof.
  intros H. unfold await_then. apply post_bind.
  eapply post_mono; [| exact H]. intros t [a | message]; simpl; auto.
Qed.

Lemma post_try_catch {A : Type} (p : async A) (h : string -> async A)
    (P : list event -> outcome A -> Prop) :
  post p (fun t1 o =>
            match o with
            | Fulfilled a => P (t1 ++ []) (Fulfilled a)
            | Rejected message => post (h message) (fun t2 b => P (t1 ++ t2) b)
            end) ->
  post (try_catch p h) P.
Proof.
  intros H. unfold try_catch. apply post_bind.
  eapply post_mono; [| exact H]. intros t [a | message]; simpl; auto.
Qed.

(** A property of the result alone survives an [await] in front of it. *)
Lemma post_await_result {A B : Type} (p : async A) (k : A -> async B)
    (Q : outcome B -> Prop) :
  (forall message, Q (Rejected message)) ->
  (forall a, post (k a) (fun _ b => Q b)) ->
  post (await_then p k) (fun _ b => Q b).
Proof.
  intros Hrej Hk. apply post_await_then.
  eapply post_mono; [| apply post_any]. intros t [a | message] _; auto.
Qed.

(** The pure fields of the record [itemRecord] builds. *)
Lemma itemRecord_rating (BASE_URL : option string) (catalogType language : string)
    (rpdbApiKey fanartApiKey addWatchedTraktBtn hideTraktHistory
       traktUsername : option string)
    (origin : string) (tmdbApiKey : option string) (content : Item.t) :
  post (itemRecord BASE_URL fetchLogo catalogType language rpdbApiKey fanartApiKey
          addWatchedTraktBtn hideTraktHistory traktUsername origin tmdbApiKey
          content)
       (fun _ o => forall meta, o = Fulfilled meta ->
                     Meta.imdbRating meta = imdbRating_of content).
Proof.
  unfold itemRecord.
  repeat (apply post_await_result; [intros message meta; discriminate | intros ?]).
  simpl. intros meta [= <-]. reflexivity.
Qed.

(** ** The paid-service URL *)

(** C4. For every kind, id, language tag and paid-service key, the URL
    built by [getRpdbPoster] is the URL without a language parameter
    exactly when the first dash-delimited segment of the key is [t0] or
    [t1]; for every other key it is that URL followed by [&lang=] and the
    first dash-delimited segment of the language tag, its primary subtag
    ([en-US] gives [en]). *)
Theorem getRpdbPoster_language_parameter
    (type : string) (id : Z) (language rpdbkey : string) :
  let tier := Js.split_dash_0 rpdbkey in
  let lang := Js.split_dash_0 language in
  first_segment_of tier rpdbkey
  /\ first_segment_of lang language
  /\ (getRpdbPoster type id language rpdbkey = rpdb_base type id rpdbkey
      <-> tier = "t0" \/ tier = "t1")
  /\ (~ (tier = "t0" \/ tier = "t1") ->
      getRpdbPoster type id language rpdbkey
      = rpdb_base type id rpdbkey +:+ "&lang=" +:+ lang)
  /\ Js.split_dash_0 "en-US" = "en".
Proof.
  intros tier lang. subst tier lang.
  split; [apply split_dash_0_first_segment |].
  split; [apply split_dash_0_first_segment |].
  rewrite getRpdbPoster_cases.
  case_bool_decide as Htier; repeat split; try tauto; try reflexivity.
  intros H. apply append_same_l in H. discriminate H.
Qed.

Lemma getRpdbPoster_language_parameter_witness :
  getRpdbPoster "movies" 603 "en-US" "t2-abc"
  = "https://api.ratingposterdb.com/t2-abc/tmdb/poster-default/movies-603.jpg?fallback=true&lang=en"
  /\ getRpdbPoster "movies" 603 "en-US" "t1-abc"
     = "https://api.ratingposterdb.com/t1-abc/tmdb/poster-default/movies-603.jpg?fallback=true".
Proof.
  pose proof (getRpdbPoster_language_parameter "movies" 603 "en-US" "t2-abc")
    as (_ & _ & _ & H2 & _).
  pose proof (getRpdbPoster_language_parameter "movies" 603 "en-US" "t1-abc")
    as (_ & _ & [_ H1] & _ & _).
  split.
  - rewrite H2; [vm_compute; reflexivity |].
    vm_compute. intros [H | H]; discriminate H.
  - rewrite H1; [vm_compute; reflexivity |].
    right. vm_compute. reflexivity.
Defined.

(** ** Poster resolution *)

Ltac answer :=
  unfold await_then, try_catch, perform, log_, ret, throw;
  repeat (simpl;
          match goal with
          | |- forall o : outcome _, _ => intros [? | ?]
          | |- context [if ?b then _ else _] => destruct b eqn:?
          | |- context [match ?x with Some _ => _ | None => _ end] =>
              is_var x; destruct x
          end);
  simpl.

(** Closes the boolean side conditions left by [answer]. *)
Ltac settle :=
  repeat match goal with
         | |- _ /\ _ => split
         | |- ~ (exists _, _) => intros [? ?]
         | |- _ <> _ => intros ?
         | |- forall _, _ => intros ?
         | H : exists _, _ |- _ => destruct H as [? ?]
         | H : andb _ _ = true |- _ => apply andb_prop in H as [? ?]
         | H : orb _ false = true |- _ => rewrite orb_false_r in H
         | H : (_ =? _)%string = true |- _ => apply String.eqb_eq in H
         | H : bool_decide _ = true |- _ => apply bool_decide_eq_true in H
         | H : Fulfilled _ = Fulfilled _ |- _ => injection H as H
         end;
  simpl in *; subst; simpl in *;
  rewrite ?andb_false_r, ?orb_false_r in *;
  try match goal with
      | H : ?x = None, H' : Js.truthy ?x = true |- _ =>
          rewrite H in H'; simpl in H'
      end;
  try congruence; try reflexivity.

(** C3. For every item whose poster path is absent (undefined, null or
    empty), [getPosterUrl] is the call tree that returns [null] at once:
    it makes no call at all, so under every handler the result is [null],
    the trace is empty and the world (cache and cloud store included) is
    the one it started in. *)
Theorem getPosterUrl_without_poster_path
    (BASE_URL : option string) (content : Poster.content)
    (catalogType language : string) (rpdbApiKey : option string) :
  Js.truthy (Poster.poster_path content) = false ->
  getPosterUrl BASE_URL content catalogType language rpdbApiKey
  = Ret (Fulfilled None)
  /\ forall (W : Type) (handle : forall X, call X -> W -> outcome X * W) (w : W),
       run handle (getPosterUrl BASE_URL content catalogType language rpdbApiKey) w
       = (Fulfilled None, w, []).
Proof.
  intros Hpath.
  assert (getPosterUrl BASE_URL content catalogType language rpdbApiKey
          = Ret (Fulfilled None)) as Heq.
  { unfold getPosterUrl. rewrite Hpath. reflexivity. }
  split; [exact Heq |]. intros W handle w. rewrite Heq. reflexivity.
Qed.

Lemma getPosterUrl_without_poster_path_witness :
  run (with_cache scripted)
      (getPosterUrl None {| Poster.id := 603; Poster.poster_path := None;
                            Poster.vote_average := None |}
                    "movies" "en-US" (Some "t1-abc"))
      (∅, bleak)
  = (Fulfilled None, (∅, bleak), []).
Proof.
  apply (getPosterUrl_without_poster_path None
           {| Poster.id := 603; Poster.poster_path := None;
              Poster.vote_average := None |}
           "movies" "en-US" (Some "t1-abc")).
  reflexivity.
Defined.

(** What the rated-poster tiers do, whatever the collaborators answer. *)
Lemma ratedPoster_post (BASE_URL : option string) (content : Poster.content) :
  post (ratedPoster BASE_URL content)
       (fun t r =>
          r <> Fulfilled None
          /\ ~ (exists message, r = Rejected message)
          /\ existsb is_probe t = false
          /\ existsb is_cache_access t = false
          /\ existsb unguarded_rejection t = false
          /\ (existsb cloud_miss t && existsb render_failed t = true ->
              r = Fulfilled (Some (tmdbFallbackUrl content)))
          /\ (forall key stored,
                existsb (cloud_hit key stored) t = true ->
                key = cloudKey content
                /\ r = Fulfilled (Some stored)
                /\ existsb is_render t = false)).
Proof.
  unfold ratedPoster. answer. all: settle.
Qed.

(** What [getPosterUrl] does for an item with a poster path, whatever the
    collaborators answer. *)
Lemma getPosterUrl_post (BASE_URL : option string) (content : Poster.content)
    (catalogType language : string) (rpdbApiKey : option string) :
  Js.truthy (Poster.poster_path content) = true ->
  post (getPosterUrl BASE_URL content catalogType language rpdbApiKey)
       (fun t r =>
          r <> Fulfilled None
          /\ ((exists message, r = Rejected message) ->
              existsb unguarded_rejection t = true)
          /\ (Js.truthy rpdbApiKey = false ->
              existsb is_probe t = false /\ existsb is_cache_access t = false)
          /\ (existsb probe_failed t && existsb cloud_miss t
              && existsb render_failed t = true ->
              r = Fulfilled (Some (tmdbFallbackUrl content)))
          /\ (forall key stored,
                existsb (cloud_hit key stored) t = true ->
                key = cloudKey content
                /\ r = Fulfilled (Some stored)
                /\ existsb is_render t = false)).
Proof.
  intros Hpath. unfold getPosterUrl, ratedPoster. rewrite Hpath.
  answer. all: settle.
Qed.

(** C2. For every item that has a poster path: if the paid-service probe
    fails (a status other than 200, or no answer), the cloud store
    reports no existing poster and the render-creation call fails (no
    answer, or an answer without success and URL), then [getPosterUrl]
    returns exactly ['https://image.tmdb.org/t/p/w500'] followed by the
    poster path; and whatever the collaborators answer, it never returns
    [null]. *)
Theorem getPosterUrl_terminal_fallback
    (BASE_URL : option string) (content : Poster.content)
    (catalogType language : string) (rpdbApiKey : option string)
    (path : string)
    (W : Type) (handle : forall X, call X -> W -> outcome X * W) (w : W) :
  Poster.poster_path content = Some path ->
  path <> "" ->
  let p := getPosterUrl BASE_URL content catalogType language rpdbApiKey in
  (existsb probe_failed (trace_of handle p w) = true ->
   existsb cloud_miss (trace_of handle p w) = true ->
   existsb render_failed (trace_of handle p w) = true ->
   result_of handle p w
   = Fulfilled (Some ("https://image.tmdb.org/t/p/w500" +:+ path)))
  /\ result_of handle p w <> Fulfilled None.
Proof.
  intros Hpath Hne p.
  assert (Js.truthy (Poster.poster_path content) = true) as Htruthy.
  { rewrite Hpath. simpl. apply negb_true_iff, String.eqb_neq, Hne. }
  pose proof (post_run handle p _ w
                (getPosterUrl_post BASE_URL content catalogType language
                   rpdbApiKey Htruthy)) as (Hnull & _ & _ & Hfall & _).
  split; [| exact Hnull].
  intros H1 H2 H3. rewrite Hfall.
  - unfold tmdbFallbackUrl. rewrite Hpath. reflexivity.
  - rewrite H1, H2, H3. reflexivity.
Qed.

Lemma getPosterUrl_terminal_fallback_witness :
  result_of (with_cache scripted)
    (getPosterUrl None (poster_part matrix) "movies" "en-US" (Some "t2-key"))
    (∅, bleak)
  = Fulfilled (Some "https://image.tmdb.org/t/p/w500/matrix.jpg").
Proof.
  refine (proj1 (getPosterUrl_terminal_fallback None (poster_part matrix)
                   "movies" "en-US" (Some "t2-key") "/matrix.jpg"
                   _ (with_cache scripted) (∅, bleak) _ _) _ _ _).
  - reflexivity.
  - discriminate.
  - vm_compute. reflexivity.
  - vm_compute. reflexivity.
  - vm_compute. reflexivity.
Defined.

(** C9. For every item with a poster path, whatever the collaborators
    answer: if the cloud store answers a query with an existing poster,
    the query was for the computed cloud key, [getPosterUrl] returns the
    stored URL, and the render-creation call is not in the trace. *)
Theorem getPosterUrl_cloud_hit
    (BASE_URL : option string) (content : Poster.content)
    (catalogType language : string) (rpdbApiKey : option string)
    (key stored : string)
    (W : Type) (handle : forall X, call X -> W -> outcome X * W) (w : W) :
  Js.truthy (Poster.poster_path content) = true ->
  let p := getPosterUrl BASE_URL content catalogType language rpdbApiKey in
  existsb (cloud_hit key stored) (trace_of handle p w) = true ->
  key = cloudKey content
  /\ result_of handle p w = Fulfilled (Some stored)
  /\ existsb is_render (trace_of handle p w) = false.
Proof.
  intros Hpath p Hhit.
  pose proof (post_run handle p _ w
                (getPosterUrl_post BASE_URL content catalogType language
                   rpdbApiKey Hpath)) as (_ & _ & _ & _ & Hcloud).
  exact (Hcloud key stored Hhit).
Qed.

Lemma getPosterUrl_cloud_hit_witness :
  let world :=
    {| cached := Fulfilled None; probe := Rejected "timeout";
       cloud := Fulfilled (Some "https://cdn.example/603-7.7.jpg");
       render := Rejected "unused"; logo_service := Fulfilled None;
       external_ids := Rejected "unused";
       genre_rows := fun _ => Fulfilled [] |} in
  let p := getPosterUrl None (poster_part matrix) "movies" "en-US"
             (Some "t2-key") in
  "603-7.7" = cloudKey (poster_part matrix)
  /\ result_of scripted p world
     = Fulfilled (Some "https://cdn.example/603-7.7.jpg")
  /\ existsb is_render (trace_of scripted p world) = false.
Proof.
  intros world p.
  apply (getPosterUrl_cloud_hit None (poster_part matrix) "movies" "en-US"
           (Some "t2-key") "603-7.7" "https://cdn.example/603-7.7.jpg"
           Answers scripted world).
  - reflexivity.
  - vm_compute. reflexivity.
Defined.

(** ** The poster cache *)

Ltac outside_answers outside :=
  repeat (simpl;
          match goal with
          | |- context [outside ?X ?c ?s] =>
              destruct (outside X c s) as [[? | ?] ?] eqn:?
          | |- context [if ?b then _ else _] => destruct b eqn:?
          end);
  simpl.

Section WarmCache.

Context {S : Type} (outside : forall X, call X -> S -> outcome X * S).
Variables (BASE_URL : option string) (content : Poster.content).
Variables (catalogType language : string) (rpdbApiKey : option string).
Hypothesis Hpath : Js.truthy (Poster.poster_path content) = true.
Hypothesis Hkey : Js.truthy rpdbApiKey = true.

Let p := getPosterUrl BASE_URL content catalogType language rpdbApiKey.
Let posterId := "poster:" +:+ pretty (Poster.id content).

(** On a hit the cached URL is returned after one read and one log line. *)
Lemma getPosterUrl_cache_hit (cache : gmap string string) (s : S) (poster : string) :
  cache !! posterId = Some poster ->
  (run (with_cache outside) p (cache, s)).1.1 = Fulfilled (Some poster)
  /\ (run (with_cache outside) p (cache, s)).1.2.1 = cache
  /\ existsb is_probe (run (with_cache outside) p (cache, s)).2 = false.
Proof.
  intros Hcache. subst p. unfold getPosterUrl.
  rewrite Hpath, Hkey. fold posterId.
  unfold await_then, try_catch, perform, log_, ret, throw. simpl.
  rewrite Hcache. simpl.
  destruct (outside _ (log debug ("Using cached poster URL for id " +:+ posterId)) s)
    as [o1 s1]. simpl. auto.
Qed.

(** On a miss the cache is written exactly when the probe answers 200,
    and then with the URL that is returned. *)
Lemma getPosterUrl_cache_miss (cache : gmap string string) (s : S) :
  cache !! posterId = None ->
  let first := run (with_cache outside) p (cache, s) in
  let rpdbImage := getRpdbPoster catalogType (Poster.id content) language
                     (default "" rpdbApiKey) in
  (existsb probe_ok first.2 = true ->
   first.1.1 = Fulfilled (Some rpdbImage)
   /\ first.1.2.1 = <[posterId := rpdbImage]> cache)
  /\ (existsb probe_ok first.2 = false -> first.1.2.1 = cache).
Proof.
  intros Hcache first rpdbImage. subst first p.
  unfold getPosterUrl, ratedPoster.
  rewrite Hpath, Hkey. fold posterId. fold rpdbImage.
  unfold await_then, try_catch, perform, log_, ret, throw. simpl.
  rewrite Hcache. simpl.
  outside_answers outside.
  all: split; intros Hprobe; simpl in Hprobe;
    rewrite ?orb_false_r in Hprobe; try discriminate Hprobe; auto; congruence.
Qed.

End WarmCache.

(** C8. For every content identifier with a paid-service key configured,
    over the key-value poster cache: when the cache holds an entry for
    the identifier after a first resolution (it was there already, or the
    first resolution stored the probed URL), a second resolution returns
    the same URL as the first, its trace has no existence probe, and it
    leaves the cache as it was; a first resolution that misses the cache
    and sees the probe answer 200 is one that warms the cache. *)
Theorem getPosterUrl_warm_cache
    (BASE_URL : option string) (content : Poster.content)
    (catalogType language : string) (rpdbApiKey : option string)
    (S : Type) (outside : forall X, call X -> S -> outcome X * S)
    (cache : gmap string string) (s : S) :
  Js.truthy (Poster.poster_path content) = true ->
  Js.truthy rpdbApiKey = true ->
  let p := getPosterUrl BASE_URL content catalogType language rpdbApiKey in
  let posterId := "poster:" +:+ pretty (Poster.id content) in
  let first := run (with_cache outside) p (cache, s) in
  let second := run (with_cache outside) p first.1.2 in
  (cache !! posterId = None -> existsb probe_ok first.2 = true ->
   is_Some (first.1.2.1 !! posterId))
  /\ (is_Some (first.1.2.1 !! posterId) ->
      second.1.1 = first.1.1
      /\ (exists poster, first.1.1 = Fulfilled (Some poster)
                         /\ first.1.2.1 !! posterId = Some poster)
      /\ existsb is_probe second.2 = false
      /\ second.1.2.1 = first.1.2.1).
Proof.
  intros Hpath Hkey p posterId first second. subst second first.
  destruct (cache !! posterId) as [poster |] eqn:Hcache.
  - destruct (getPosterUrl_cache_hit outside BASE_URL content catalogType
                language rpdbApiKey Hpath Hkey cache s poster Hcache)
      as (Hr & Hw & _).
    fold p posterId in Hr, Hw.
    destruct (run (with_cache outside) p (cache, s)) as [[r1 [cache1 s1]] t1].
    simpl in *. subst.
    destruct (getPosterUrl_cache_hit outside BASE_URL content catalogType
                language rpdbApiKey Hpath Hkey cache s1 poster Hcache)
      as (Hr2 & Hw2 & Hp2).
    fold p posterId in Hr2, Hw2, Hp2.
    split; [intros H; discriminate H |]. intros _. eauto 10.
  - pose proof (getPosterUrl_cache_miss outside BASE_URL content catalogType
                  language rpdbApiKey Hpath Hkey cache s Hcache) as Hmiss.
    fold p posterId in Hmiss. simpl in Hmiss.
    destruct (run (with_cache outside) p (cache, s)) as [[r1 [cache1 s1]] t1].
    simpl in *.
    destruct Hmiss as [Hok Hnot]. destruct (existsb probe_ok t1).
    + destruct (Hok eq_refl) as [-> ->].
      destruct (getPosterUrl_cache_hit outside BASE_URL content catalogType
                  language rpdbApiKey Hpath Hkey
                  (<[posterId := getRpdbPoster catalogType (Poster.id content)
                                   language (default "" rpdbApiKey)]> cache)
                  s1 _ (lookup_insert_eq _ _ _))
        as (Hr2 & Hw2 & Hp2).
      fold p posterId in Hr2, Hw2, Hp2.
      rewrite lookup_insert_eq. split; [eauto |]. intros _. eauto 10.
    + rewrite (Hnot eq_refl), Hcache.
      split; [intros _ H; discriminate H |].
      intros [? H]; discriminate H.
Qed.

Lemma getPosterUrl_warm_cache_witness :
  let p := getPosterUrl None (poster_part matrix) "movies" "en-US"
             (Some "t2-key") in
  let first := run (with_cache scripted) p (∅, probe_200) in
  let second := run (with_cache scripted) p first.1.2 in
  second.1.1 = first.1.1 /\ existsb is_probe second.2 = false.
Proof.
  intros p first second.
  destruct (getPosterUrl_warm_cache None (poster_part matrix) "movies" "en-US"
              (Some "t2-key") Answers scripted ∅ probe_200 eq_refl eq_refl)
    as [Hwarm Hsecond].
  destruct Hsecond as (Hsame & _ & Hprobe & _).
  - apply Hwarm; vm_compute; reflexivity.
  - split; [exact Hsame | exact Hprobe].
Defined.

(** ** Ratings *)

Example toFixed1_rounds_up : Number.toFixed1 (Finite 8631148685855556 (-50)) = "7.7".
Proof. vm_compute. reflexivity. Qed.

(** [0.25] is a tie and goes up; [0.35] is a double just below the tie. *)
Example toFixed1_tie : Number.toFixed1 (Finite 1 (-2)) = "0.3".
Proof. vm_compute. reflexivity. Qed.

Example toFixed1_below_tie :
  Number.toFixed1 (Finite 6305039478318694 (-54)) = "0.3".
Proof. vm_compute. reflexivity. Qed.

Example toFixed1_negative : Number.toFixed1 (Finite (-5) (-7)) = "-0.0".
Proof. vm_compute. reflexivity. Qed.

Example toFixed1_large : Number.toFixed1 (Finite 4503599627370496 18) = "1.1805916207174113e+21".
Proof. vm_compute. reflexivity. Qed.

Lemma tenths_nearest (m e : Z) : nearest_tenth (Number.tenths m e) m e.
Proof.
  unfold nearest_tenth, Number.tenths.
  destruct (Z.leb_spec 0 e) as [He | He].
  - rewrite (Z.max_r 0 e), (Z.max_l 0 (- e)) by lia.
    change (2 ^ 0) with 1. nia.
  - rewrite (Z.max_l 0 e), (Z.max_r 0 (- e)) by lia.
    change (2 ^ 0) with 1.
    replace (1 - e) with (Z.succ (- e)) by lia.
    rewrite Z.pow_succ_r by lia.
    assert (0 < 2 ^ (- e)) as Hd by (apply Z.pow_pos_nonneg; lia).
    set (d := 2 ^ (- e)) in *. set (a := Z.abs m).
    pose proof (Z.div_mod (20 * a + d) (2 * d) ltac:(lia)) as Hdiv.
    pose proof (Z.mod_pos_bound (20 * a + d) (2 * d) ltac:(lia)) as Hmod.
    nia.
Qed.

Lemma getPosterUrl_cloud_keys (BASE_URL : option string)
    (content : Poster.content) (catalogType language : string)
    (rpdbApiKey : option string) :
  post (getPosterUrl BASE_URL content catalogType language rpdbApiKey)
       (fun t _ => Forall (eq (cloudKey content)) (cloud_keys t)).
Proof.
  unfold getPosterUrl, ratedPoster.
  destruct (Js.truthy (Poster.poster_path content)); simpl.
  - answer. all: repeat constructor.
  - constructor.
Qed.

(** C1 (amended). For every item whose vote average is present and
    truthy, the rating string is the vote average formatted to one
    decimal place ([7.666] gives ["7.7"]; below [10^21] the digits are
    those of the nearest tenth), in the cloud poster key and in the
    rating field of the output record alike.  When the vote average is
    absent, the cloud poster key carries the marker ['NR'] while the
    rating field of the output record is [null]. *)
Theorem rating_formatting (item : Item.t) :
  (forall x, Item.vote_average item = Some x -> Number.truthy x = true ->
     posterRating (poster_part item) = Number.toFixed1 x
     /\ cloudKey (poster_part item)
        = pretty (Item.id item) +:+ "-" +:+ Number.toFixed1 x
     /\ imdbRating_of item = Some (Number.toFixed1 x))
  /\ (Item.vote_average item = None ->
      posterRating (poster_part item) = "NR"
      /\ cloudKey (poster_part item) = pretty (Item.id item) +:+ "-" +:+ "NR"
      /\ imdbRating_of item = None)
  /\ (forall m e, Number.at_least_1e21 m e = false ->
        let n := Number.tenths m e in
        nearest_tenth n m e
        /\ Number.toFixed1 (Finite m e)
           = (if m <? 0 then "-" else "") +:+ pretty (n / 10) +:+ "."
             +:+ pretty (n mod 10))
  /\ Number.toFixed1 (Finite 8631148685855556 (-50)) = "7.7"
  /\ (forall BASE_URL catalogType language rpdbApiKey fanartApiKey
        addWatchedTraktBtn hideTraktHistory traktUsername origin tmdbApiKey
        (W : Type) (handle : forall X, call X -> W -> outcome X * W) (w : W),
        Forall (eq (cloudKey (poster_part item)))
          (cloud_keys
             (trace_of handle
                (getPosterUrl BASE_URL (poster_part item) catalogType language
                   rpdbApiKey) w))
        /\ forall meta,
             result_of handle
               (itemRecord BASE_URL fetchLogo catalogType language rpdbApiKey
                  fanartApiKey addWatchedTraktBtn hideTraktHistory
                  traktUsername origin tmdbApiKey item) w
             = Fulfilled meta ->
             Meta.imdbRating meta = imdbRating_of item).
Proof.
  split; [| split; [| split; [| split]]].
  - intros x Hx Htruthy.
    unfold cloudKey, posterRating, imdbRating_of, rated, Number.parseFloat.
    simpl. rewrite Hx, Htruthy. auto.
  - intros Hnone.
    unfold cloudKey, posterRating, imdbRating_of, rated. simpl.
    rewrite Hnone. auto.
  - intros m e Hsmall n. split; [apply tenths_nearest |].
    unfold Number.toFixed1. rewrite Hsmall. reflexivity.
  - vm_compute. reflexivity.
  - intros. split.
    + apply (post_run handle _ _ w (getPosterUrl_cloud_keys _ _ _ _ _)).
    + intros meta Hmeta.
      exact (post_run handle _ _ w (itemRecord_rating _ _ _ _ _ _ _ _ _ _ _)
               meta Hmeta).
Qed.

Lemma rating_formatting_witness :
  posterRating (poster_part matrix) = "7.7"
  /\ cloudKey (poster_part matrix) = "603-7.7"
  /\ imdbRating_of matrix = Some "7.7"
  /\ cloudKey (poster_part unrated) = "11-NR"
  /\ imdbRating_of unrated = None.
Proof.
  destruct (rating_formatting matrix) as (Hrated & _).
  destruct (Hrated (Finite 8631148685855556 (-50)) eq_refl eq_refl)
    as (H1 & H2 & H3).
  destruct (rating_formatting unrated) as (_ & Hnone & _).
  destruct (Hnone eq_refl) as (_ & H4 & H5).
  rewrite H1, H2, H3, H4, H5. vm_compute. auto.
Defined.

(** C1 as stated fails: for an item without a vote average the cloud
    poster key carries ['NR'], but the record [buildMetas] produces has
    [null] in its rating field, not that marker. *)
Lemma rating_marker_counterexample :
  Item.vote_average unrated = None
  /\ cloud_keys (trace_of scripted
                   (buildMetas None fetchLogo "movies" "en-US" None None None None None
                      "" None [unrated]) bleak)
     = ["11-NR"; "11-NR"]
  /\ exists meta,
       result_of scripted
         (buildMetas None fetchLogo "movies" "en-US" None None None None None "" None
            [unrated]) bleak
       = Fulfilled [meta]
       /\ Meta.imdbRating meta = None
       /\ Meta.imdbRating meta <> Some "NR".
Proof.
  split; [reflexivity |]. split; [vm_compute; reflexivity |].
  eexists. split; [vm_compute; reflexivity |]. split; [reflexivity | discriminate].
Qed.

(** C10. For every item whose vote average is exactly 0 the rating counts
    as absent: the cloud poster key ends in the marker ['NR'], every call
    to the cloud store or the render service names that key, and the
    rating field of the output record is [null]. *)
Theorem zero_vote_average_not_rated (item : Item.t) (e : Z) :
  Item.vote_average item = Some (Finite 0 e) ->
  posterRating (poster_part item) = "NR"
  /\ cloudKey (poster_part item) = pretty (Item.id item) +:+ "-" +:+ "NR"
  /\ imdbRating_of item = None
  /\ (forall BASE_URL catalogType language rpdbApiKey fanartApiKey
        addWatchedTraktBtn hideTraktHistory traktUsername origin tmdbApiKey
        (W : Type) (handle : forall X, call X -> W -> outcome X * W) (w : W),
        Forall (eq (pretty (Item.id item) +:+ "-" +:+ "NR"))
          (cloud_keys
             (trace_of handle
                (getPosterUrl BASE_URL (poster_part item) catalogType language
                   rpdbApiKey) w))
        /\ forall meta,
             result_of handle
               (itemRecord BASE_URL fetchLogo catalogType language rpdbApiKey
                  fanartApiKey addWatchedTraktBtn hideTraktHistory
                  traktUsername origin tmdbApiKey item) w
             = Fulfilled meta ->
             Meta.imdbRating meta = None).
Proof.
  intros Hzero.
  assert (cloudKey (poster_part item) = pretty (Item.id item) +:+ "-" +:+ "NR")
    as Hkey.
  { unfold cloudKey, posterRating, rated. simpl. rewrite Hzero. reflexivity. }
  assert (imdbRating_of item = None) as Hrating.
  { unfold imdbRating_of, rated. rewrite Hzero. reflexivity. }
  repeat split; auto.
  - unfold posterRating, rated. simpl. rewrite Hzero. reflexivity.
  - rewrite <- Hkey.
    apply (post_run handle _ _ w (getPosterUrl_cloud_keys _ _ _ _ _)).
  - intros meta Hmeta. rewrite <- Hrating.
    exact (post_run handle _ _ w (itemRecord_rating _ _ _ _ _ _ _ _ _ _ _)
             meta Hmeta).
Qed.

Lemma zero_vote_average_not_rated_witness :
  cloudKey (poster_part zero_rated) = "42-NR"
  /\ imdbRating_of zero_rated = None.
Proof.
  destruct (zero_vote_average_not_rated zero_rated 0 eq_refl)
    as (_ & Hkey & Hrating & _).
  split; [rewrite Hkey; vm_compute; reflexivity | exact Hrating].
Defined.

(** ** Metadata assembly: the steps of one item *)

Lemma genre_lookups_app (t1 t2 : list event) :
  genre_lookups (t1 ++ t2) = genre_lookups t1 ++ genre_lookups t2.
Proof. apply omap_app. Qed.

Lemma poster_step_post (BASE_URL : option string) (content : Poster.content)
    (catalogType language : string) (rpdbApiKey : option string) :
  post (getPosterUrl BASE_URL content catalogType language rpdbApiKey)
       (fun t r =>
          existsb logo_failed t = false
          /\ genre_lookups t = []
          /\ ((exists message, r = Rejected message) ->
              existsb unguarded_rejection t = true)).
Proof.
  unfold getPosterUrl, ratedPoster.
  destruct (Js.truthy (Poster.poster_path content)); simpl.
  - answer. all: settle.
  - settle.
Qed.

Lemma logo_step_post (fanartApiKey : option string) (tmdbId : Z)
    (language : string) :
  post (if Js.truthy fanartApiKey
        then fetchLogo tmdbId language (default "" fanartApiKey)
        else ret None)
       (fun t r =>
          genre_lookups t = []
          /\ existsb unguarded_rejection t = false
          /\ exists logo, r = Fulfilled logo
                          /\ (existsb logo_failed t = true -> logo = None)).
Proof.
  unfold fetchLogo. answer.
  all: repeat split; try reflexivity; eexists; split; try reflexivity;
    intros H; try discriminate H; reflexivity.
Qed.

Lemma imdb_step_post (tmdbApiKey : option string) (target : string)
    (failure : string -> string) :
  post (if Js.truthy tmdbApiKey
        then try_catch
               (let* externalIds := perform (makeRequest target
                                               (default "" tmdbApiKey)) in
                ret (imdb_id externalIds))
               (fun message =>
                  do* log_ error (failure message) in ret None)
        else ret None)
       (fun t r =>
          genre_lookups t = []
          /\ existsb unguarded_rejection t = false
          /\ existsb logo_failed t = false
          /\ exists imdbId, r = Fulfilled imdbId).
Proof.
  answer. all: repeat split; eauto.
Qed.

(** One genre lookup is one query; its answer decides the result. *)
Lemma genre_callback_post (genreId : Z) (type language : string) :
  post (let* genreName := getGenreName genreId type language in ret genreName)
       (fun t r =>
          existsb logo_failed t = false
          /\ exists o,
               genre_lookups t = [(Some (SqlNumber genreId), o)]
               /\ existsb unguarded_rejection t = is_rejected o
               /\ r = first_genre_name o).
Proof.
  unfold getGenreName, await_then, try_catch, perform, ret, throw. simpl.
  intros [[| row rows] | message]; simpl; eauto 10.
Qed.

Lemma settle_genres_post (type language : string) (genre_ids : list Z) :
  post (settle_all
          (map (fun genreId =>
                  let* genreName := getGenreName genreId type language in
                  ret genreName) genre_ids))
       (fun t os =>
          existsb logo_failed t = false
          /\ map fst (genre_lookups t)
             = map (fun genreId => Some (SqlNumber genreId)) genre_ids
          /\ os = map (fun l => first_genre_name l.2) (genre_lookups t)
          /\ existsb unguarded_rejection t
             = existsb (fun l => is_rejected l.2) (genre_lookups t)).
Proof.
  induction genre_ids as [| genreId rest IH].
  - simpl. auto.
  - cbn [map settle_all]. apply post_bind.
    eapply post_mono; [| apply genre_callback_post].
    intros t1 r1 (Hlogo1 & o & Hlook1 & Hrej1 & ->).
    apply post_bind.
    eapply post_mono; [| apply IH].
    intros t2 os (Hlogo2 & Hids & -> & Hrej2). simpl.
    rewrite app_nil_r, existsb_app, existsb_app, genre_lookups_app.
    rewrite Hlogo1, Hlogo2, Hlook1, Hrej1, Hrej2. simpl.
    rewrite Hids. auto.
Qed.

Lemma omap_cons_eq {A B : Type} (f : A -> option B) (x : A) (l : list A) :
  omap f (x :: l)
  = match f x with
    | Some y => y :: omap f l
    | None => omap f l
    end.
Proof. reflexivity. Qed.

Lemma all_fulfilled_names (ls : list (option sql_value * outcome (list GenreRow)))
    (names : list (option string)) :
  all_fulfilled (map (fun l => first_genre_name l.2) ls) = Fulfilled names ->
  Forall (fun l => is_rejected l.2 = false) ls
  /\ filter_Boolean names = omap (fun l => resolved_name l.2) ls.
Proof.
  revert names. induction ls as [| [v o] ls IH]; simpl; intros names H.
  - injection H as <-. split; [constructor | reflexivity].
  - destruct o as [rows | message]; simpl in H; [| discriminate H].
    destruct (all_fulfilled (map (fun l => first_genre_name l.2) ls))
      as [rest | message] eqn:Hrest.
    + destruct (IH rest eq_refl) as [Hall Hnames].
      assert (names = match rows with
                      | row :: _ => genre_name row
                      | [] => None
                      end :: rest) as ->.
      { destruct rows; simpl in H; congruence. }
      split; [constructor; [reflexivity | exact Hall] |].
      unfold filter_Boolean in *. rewrite !omap_cons_eq, Hnames.
      destruct rows as [| row rows]; simpl; [reflexivity |].
      unfold Js.or_null. destruct (Js.truthy (genre_name row)); reflexivity.
    + destruct rows; simpl in H; discriminate H.
Qed.

Lemma all_fulfilled_rejected
    (ls : list (option sql_value * outcome (list GenreRow))) (message : string) :
  all_fulfilled (map (fun l => first_genre_name l.2) ls) = Rejected message ->
  existsb (fun l => is_rejected l.2) ls = true.
Proof.
  induction ls as [| [v o] ls IH]; simpl; intros H; [discriminate H |].
  destruct o as [rows | message']; simpl; [| reflexivity].
  apply IH.
  destruct (all_fulfilled (map (fun l => first_genre_name l.2) ls)).
  - destruct rows; simpl in H; discriminate H.
  - destruct rows; simpl in H; congruence.
Qed.

Lemma genres_step_post (type language : string) (genre_ids : option (list Z)) :
  post (match genre_ids with
        | Some genre_ids =>
            let* genres :=
              Promise_all (map (fun genreId =>
                let* genreName := getGenreName genreId type language in
                ret genreName) genre_ids) in
            ret (filter_Boolean genres)
        | None => ret []
        end)
       (fun t r =>
          existsb logo_failed t = false
          /\ ((exists message, r = Rejected message) ->
              existsb unguarded_rejection t = true)
          /\ forall genres, r = Fulfilled genres ->
               map fst (genre_lookups t)
               = map (fun genreId => Some (SqlNumber genreId))
                     (default [] genre_ids)
               /\ Forall (fun l => is_rejected l.2 = false) (genre_lookups t)
               /\ genres = omap (fun l => resolved_name l.2) (genre_lookups t)).
Proof.
  destruct genre_ids as [genre_ids |]; simpl.
  - apply post_await_then. unfold Promise_all. apply post_bind.
    eapply post_mono; [| apply settle_genres_post].
    intros t os (Hlogo & Hids & -> & Hrej). simpl.
    destruct (all_fulfilled _) as [names | message] eqn:Hall;
      rewrite !app_nil_r.
    + destruct (all_fulfilled_names _ _ Hall) as [Hok Hnames].
      split; [exact Hlogo |]. split; [intros [? H]; discriminate H |].
      intros genres [= <-]. auto.
    + split; [exact Hlogo |]. split.
      * intros _. rewrite Hrej. eapply all_fulfilled_rejected, Hall.
      * intros genres H. discriminate H.
  - split; [reflexivity |]. split; [intros [? H]; discriminate H |].
    intros genres [= <-]. simpl. auto.
Qed.

Lemma itemRecord_post (BASE_URL : option string) (catalogType language : string)
    (rpdbApiKey fanartApiKey addWatchedTraktBtn hideTraktHistory
       traktUsername : option string)
    (origin : string) (tmdbApiKey : option string) (content : Item.t) :
  post (itemRecord BASE_URL fetchLogo catalogType language rpdbApiKey fanartApiKey
          addWatchedTraktBtn hideTraktHistory traktUsername origin tmdbApiKey
          content)
       (item_post content).
Proof.
  unfold itemRecord.
  apply post_await_then. eapply post_mono; [| apply poster_step_post].
  intros t1 [posterUrl | message] (Hl1 & Hg1 & Hr1).
  2: { rewrite app_nil_r. split; [intros _; apply Hr1; eauto |].
       intros meta H. discriminate H. }
  apply post_await_then. eapply post_mono; [| apply logo_step_post].
  intros t2 r2 (Hg2 & Hu2 & logo & -> & Hlogo).
  apply post_await_then. eapply post_mono; [| apply imdb_step_post].
  intros t3 r3 (Hg3 & Hu3 & Hl3 & imdbId & ->).
  apply post_await_then. eapply post_mono; [| apply genres_step_post].
  intros t4 [genres | message] (Hl4 & Hr4 & Hgen).
  - simpl. rewrite !app_nil_r.
    split; [intros [? H]; discriminate H |].
    intros meta [= <-]. simpl.
    rewrite !existsb_app, !genre_lookups_app, Hg1, Hg2, Hg3, Hl1, Hl3, Hl4.
    simpl. rewrite !orb_false_r.
    destruct (Hgen genres eq_refl) as (Hids & Hok & Hnames).
    repeat split; auto.
    intros Hfailed. rewrite (Hlogo Hfailed). reflexivity.
  - rewrite !app_nil_r. split; [| intros meta H; discriminate H].
    intros _. rewrite !existsb_app, Hr4 by eauto.
    rewrite !orb_true_r. reflexivity.
Qed.

Lemma processItem_post (BASE_URL : option string) (catalogType language : string)
    (rpdbApiKey fanartApiKey addWatchedTraktBtn hideTraktHistory
       traktUsername : option string)
    (origin : string) (tmdbApiKey : option string) (content : Item.t) :
  post (processItem BASE_URL fetchLogo catalogType language rpdbApiKey fanartApiKey
          addWatchedTraktBtn hideTraktHistory traktUsername origin tmdbApiKey
          content)
       (callback_post content).
Proof.
  unfold processItem. apply post_try_catch. apply post_await_then.
  eapply post_mono; [| apply itemRecord_post].
  intros t [meta | message] [Hrej Hful].
  - simpl. unfold callback_post. rewrite !app_nil_r. split; [eauto |].
    split; [intros H; discriminate H |].
    intros meta' [= <-]. apply Hful. reflexivity.
  - simpl. intros logged. unfold callback_post.
    rewrite !app_nil_r, existsb_app, Hrej by eauto.
    split; [eauto |]. split; [reflexivity |]. intros meta H. discriminate H.
Qed.

(** ** Genres *)

(** C6 (amended). For every item with genre ids whose record is produced:
    each genre id was looked up once, in the order of the ids, no lookup
    was rejected, and the genres of the record are the names the lookups
    resolved to, in that order, without the ids whose lookup found no row
    or no name. *)
Theorem genres_resolved_in_order
    (BASE_URL : option string) (catalogType language : string)
    (rpdbApiKey fanartApiKey addWatchedTraktBtn hideTraktHistory
       traktUsername : option string)
    (origin : string) (tmdbApiKey : option string) (content : Item.t)
    (genre_ids : list Z) (meta : Meta.t)
    (W : Type) (handle : forall X, call X -> W -> outcome X * W) (w : W) :
  Item.genre_ids content = Some genre_ids ->
  let p := processItem BASE_URL fetchLogo catalogType language rpdbApiKey fanartApiKey
             addWatchedTraktBtn hideTraktHistory traktUsername origin
             tmdbApiKey content in
  result_of handle p w = Fulfilled (Some meta) ->
  map fst (genre_lookups (trace_of handle p w))
  = map (fun genreId => Some (SqlNumber genreId)) genre_ids
  /\ Forall (fun l => is_rejected l.2 = false)
            (genre_lookups (trace_of handle p w))
  /\ Meta.genres meta
     = omap (fun l => resolved_name l.2) (genre_lookups (trace_of handle p w)).
Proof.
  intros Hids p Hmeta.
  pose proof (post_run handle p _ w
                (processItem_post BASE_URL catalogType language rpdbApiKey
                   fanartApiKey addWatchedTraktBtn hideTraktHistory
                   traktUsername origin tmdbApiKey content))
    as (_ & _ & Hrecord).
  destruct (Hrecord meta Hmeta) as (_ & Hlook & Hok & Hnames).
  rewrite Hids in Hlook. auto.
Qed.

Lemma genres_resolved_in_order_witness :
  exists meta,
    result_of scripted
      (processItem None fetchLogo "movies" "en-US" None None None None None "" None matrix)
      (with_genres genre_table)
    = Fulfilled (Some meta)
    /\ Meta.genres meta = ["Action"; "Science Fiction"].
Proof.
  eexists. split; [vm_compute; reflexivity |].
  match goal with
  | |- Meta.genres ?m = _ =>
      destruct (genres_resolved_in_order None "movies" "en-US" None None None
                  None None "" None matrix [1; 2; 3] m Answers scripted
                  (with_genres genre_table) eq_refl)
        as (_ & _ & Hnames)
  end.
  - vm_compute. reflexivity.
  - rewrite Hnames. vm_compute. reflexivity.
Defined.

(** C6 as stated fails for a lookup that rejects: with genre ids
    [1; 2; 3] and a database that fails on id 2, the per-item callback
    returns [null] and the batch has no record for the item, hence no
    two-element genre list. *)
Lemma genre_rejection_counterexample :
  Item.genre_ids matrix = Some [1; 2; 3]
  /\ map (fun l => is_rejected l.2)
         (genre_lookups
            (trace_of scripted
               (processItem None fetchLogo "movies" "en-US" None None None None None ""
                  None matrix)
               (with_genres genre_table_failing)))
     = [false; true; false]
  /\ result_of scripted
       (processItem None fetchLogo "movies" "en-US" None None None None None "" None
          matrix)
       (with_genres genre_table_failing)
     = Fulfilled None
  /\ result_of scripted
       (buildMetas None fetchLogo "movies" "en-US" None None None None None "" None
          [matrix])
       (with_genres genre_table_failing)
     = Fulfilled [].
Proof.
  repeat split; vm_compute; reflexivity.
Qed.

(** ** Metadata assembly: the batch *)

Section Batch.

Context {W : Type} (handle : forall X, call X -> W -> outcome X * W).

Lemma result_of_bind {A B : Type} (p : prog A) (f : A -> prog B) (w : W) :
  result_of handle (bind p f) w
  = result_of handle (f (result_of handle p w)) (world_of handle p w).
Proof.
  unfold result_of, world_of. rewrite run_bind.
  destruct (run handle p w) as [[a w1] t1]. simpl.
  destruct (run handle (f a) w1) as [[b w2] t2]. reflexivity.
Qed.


Lemma all_fulfilled_map_Fulfilled {A : Type} (l : list A) :
  all_fulfilled (map Fulfilled l) = Fulfilled l.
Proof. induction l as [| a l IH]; simpl; [| rewrite IH]; reflexivity. Qed.

Lemma filter_records_map (os : list (outcome Meta.t)) :
  filter_records (map record_or_null os) = fulfilled_values os.
Proof.
  unfold filter_records, fulfilled_values.
  induction os as [| [meta | message] os IH]; [reflexivity | |].
  - rewrite map_cons, !omap_cons_eq, IH. reflexivity.
  - rewrite map_cons, !omap_cons_eq, IH. reflexivity.
Qed.

Variable BASE_URL : option string.
Variable getFanartPoster : Z -> string -> string -> async (option string).
Variables (catalogType language : string).
Variables (rpdbApiKey fanartApiKey : option string).
Variables (addWatchedTraktBtn hideTraktHistory traktUsername : option string).
Variables (origin : string) (tmdbApiKey : option string).

Let body := itemRecord BASE_URL getFanartPoster catalogType language rpdbApiKey fanartApiKey
              addWatchedTraktBtn hideTraktHistory traktUsername origin
              tmdbApiKey.
Let callback := processItem BASE_URL getFanartPoster catalogType language rpdbApiKey
                  fanartApiKey addWatchedTraktBtn hideTraktHistory
                  traktUsername origin tmdbApiKey.

(** The callback returns the record of the [try] block, or [null] when
    the block threw. *)
Lemma processItem_result (content : Item.t) (w : W) :
  result_of handle (callback content) w
  = Fulfilled (record_or_null (result_of handle (body content) w)).
Proof.
  subst callback body. unfold processItem, try_catch, await_then.
  rewrite !result_of_bind.
  destruct (result_of handle _ w) as [meta | message]; simpl.
  - reflexivity.
  - unfold result_of. simpl.
    destruct (handle _ _ _) as [o w1]. reflexivity.
Qed.

Lemma settle_all_results (items : list Item.t) (w : W) :
  result_of handle (settle_all (map callback items)) w
  = map (fun o => Fulfilled (record_or_null o))
        (item_outcomes handle BASE_URL getFanartPoster catalogType language rpdbApiKey
           fanartApiKey addWatchedTraktBtn hideTraktHistory traktUsername
           origin tmdbApiKey items w).
Proof.
  revert w. induction items as [| content rest IH]; intros w.
  - reflexivity.
  - cbn [map settle_all]. rewrite !result_of_bind, IH.
    rewrite processItem_result. reflexivity.
Qed.

Lemma outcomes_length (items : list Item.t) (w : W) :
  length (item_outcomes handle BASE_URL getFanartPoster catalogType language rpdbApiKey
            fanartApiKey addWatchedTraktBtn hideTraktHistory traktUsername
            origin tmdbApiKey items w)
  = length items.
Proof.
  revert w. induction items as [| content rest IH]; intros w; simpl;
    [| rewrite IH]; reflexivity.
Qed.

Lemma buildMetas_result (filteredResults : list Item.t) (w : W) :
  result_of handle
    (buildMetas BASE_URL getFanartPoster catalogType language rpdbApiKey fanartApiKey
       addWatchedTraktBtn hideTraktHistory traktUsername origin tmdbApiKey
       filteredResults) w
  = Fulfilled
      (fulfilled_values
         (item_outcomes handle BASE_URL getFanartPoster catalogType language rpdbApiKey
            fanartApiKey addWatchedTraktBtn hideTraktHistory traktUsername
            origin tmdbApiKey filteredResults w)).
Proof.
  unfold buildMetas, try_catch, await_then, Promise_all.
  rewrite !result_of_bind. fold callback. rewrite settle_all_results.
  rewrite <- (map_map record_or_null Fulfilled), all_fulfilled_map_Fulfilled.
  simpl. unfold result_of, ret. simpl. rewrite filter_records_map. reflexivity.
Qed.

End Batch.

(** C7. For every batch, under every handler: the output of [buildMetas]
    holds exactly one record for each item whose [try] block ended with a
    record, in the order of the items, and nothing for an item whose block
    threw; a batch of three items whose second item throws yields exactly
    the records of the first and the third. *)
Theorem buildMetas_batch_resilience
    (BASE_URL : option string) (catalogType language : string)
    (rpdbApiKey fanartApiKey addWatchedTraktBtn hideTraktHistory
       traktUsername : option string)
    (origin : string) (tmdbApiKey : option string)
    (filteredResults : list Item.t)
    (W : Type) (handle : forall X, call X -> W -> outcome X * W) (w : W) :
  let outcomes :=
    item_outcomes handle BASE_URL fetchLogo catalogType language rpdbApiKey fanartApiKey
      addWatchedTraktBtn hideTraktHistory traktUsername origin tmdbApiKey
      filteredResults w in
  let output :=
    result_of handle
      (buildMetas BASE_URL fetchLogo catalogType language rpdbApiKey fanartApiKey
         addWatchedTraktBtn hideTraktHistory traktUsername origin tmdbApiKey
         filteredResults) w in
  length outcomes = length filteredResults
  /\ output = Fulfilled (fulfilled_values outcomes)
  /\ (forall m1 message m3,
        outcomes = [Fulfilled m1; Rejected message; Fulfilled m3] ->
        output = Fulfilled [m1; m3]).
Proof.
  intros outcomes output. subst outcomes output.
  split; [apply outcomes_length |].
  split; [apply buildMetas_result |].
  intros m1 message m3 Hthree. rewrite buildMetas_result, Hthree. reflexivity.
Qed.

Lemma buildMetas_batch_resilience_witness :
  exists m1 m3,
    result_of scripted
      (buildMetas None fetchLogo "movies" "en-US" None None None None None "" None
         three_items)
      (with_genres genre_table_failing)
    = Fulfilled [m1; m3]
    /\ Meta.id m1 = "tmdb:1" /\ Meta.id m3 = "tmdb:3".
Proof.
  destruct (buildMetas_batch_resilience None "movies" "en-US" None None None
              None None "" None three_items Answers scripted
              (with_genres genre_table_failing))
    as (_ & _ & Hthree).
  eexists _, _. split; [eapply Hthree; vm_compute; reflexivity |].
  split; reflexivity.
Defined.

(** * Further properties of the module *)

(** ** Catalog ids *)

Lemma strip_prefix_app (p s : string) : strip_prefix p (p +:+ s) = Some s.
Proof.
  induction p as [| c p IH]; [destruct s; reflexivity |].
  rewrite append_String. simpl. rewrite Ascii.eqb_refl. exact IH.
Qed.

Lemma strip_prefix_Some (p s r : string) :
  strip_prefix p s = Some r -> s = p +:+ r.
Proof.
  revert s. induction p as [| c p IH]; intros s H.
  - destruct s; injection H as <-; reflexivity.
  - destruct s as [| b s]; [discriminate H |]. simpl in H.
    destruct (Ascii.eqb_spec c b) as [<- | Hne]; [| discriminate H].
    rewrite append_String. f_equal. auto.
Qed.

(** A digit is none of the letters the variants start with after their
    dash. *)
Lemma digit_not_letter (d : ascii) :
  is_digit d = true -> Ascii.eqb "n" d = false /\ Ascii.eqb "p" d = false.
Proof.
  intros Hd. split.
  - destruct (Ascii.eqb_spec "n"%char d) as [<- | _]; [discriminate Hd | reflexivity].
  - destruct (Ascii.eqb_spec "p"%char d) as [<- | _]; [discriminate Hd | reflexivity].
Qed.

Section Matcher.

Local Arguments Ascii.eqb : simpl never.
Local Arguments all_digits : simpl never.

Lemma match_catalog_id_complete (kind variant digits : string) :
  kind = "movies" \/ kind = "series" ->
  variant = "-new" \/ variant = "-popular" \/ variant = "" ->
  digits <> "" ->
  all_digits digits = true ->
  match_catalog_id (catalog_id kind variant digits) = Some (kind, digits).
Proof.
  intros Hkind Hvariant Hne Hdigits.
  destruct digits as [| d ds]; [contradiction |].
  assert (is_digit d = true) as Hd.
  { unfold all_digits in Hdigits. apply andb_prop in Hdigits. tauto. }
  destruct (digit_not_letter d Hd) as [Hn Hp].
  unfold match_catalog_id, catalog_id. rewrite strip_prefix_app.
  destruct Hkind as [-> | ->]; destruct Hvariant as [-> | [-> | ->]];
    repeat rewrite append_String; simpl; rewrite ?Ascii.eqb_refl;
    change (Ascii.eqb "m" "s") with false;
    change (Ascii.eqb "n" "p") with false;
    rewrite ?Hn, ?Hp; simpl; rewrite ?Ascii.eqb_refl; simpl;
    rewrite ?Hdigits; reflexivity.
Qed.

End Matcher.

Lemma first_match_Some {A B : Type} (f : A -> option B) (l : list A) (b : B) :
  first_match f l = Some b -> exists a, In a l /\ f a = Some b.
Proof.
  induction l as [| a l IH]; simpl; [discriminate |].
  destruct (f a) as [b' |] eqn:Hfa.
  - intros [= ->]. eauto.
  - intros H. destruct (IH H) as (a' & Hin & Ha'). eauto.
Qed.

Lemma match_catalog_id_sound (id kind digits : string) :
  match_catalog_id id = Some (kind, digits) ->
  well_formed_catalog_id id kind digits.
Proof.
  unfold match_catalog_id, well_formed_catalog_id, catalog_id.
  destruct (strip_prefix "tmdb-discover-" id) as [after_prefix |] eqn:Hprefix;
    [| discriminate].
  apply strip_prefix_Some in Hprefix. subst id.
  intros H. apply first_match_Some in H as (k & Hk & H).
  destruct (strip_prefix k after_prefix) as [after_kind |] eqn:Hkind;
    [| discriminate H].
  apply first_match_Some in H as (variant & Hvariant & H).
  destruct (strip_prefix variant after_kind) as [after_variant |] eqn:Hv;
    [| discriminate H].
  destruct (strip_prefix "-" after_variant) as [[| d ds] |] eqn:Hdash;
    try discriminate H.
  destruct (all_digits (String d ds)) eqn:Hdigits; [| discriminate H].
  injection H as <- <-.
  apply strip_prefix_Some in Hkind, Hv, Hdash. subst.
  exists variant. split; [reflexivity |].
  split; [destruct Hk as [<- | [<- | []]]; auto |].
  split; [destruct Hvariant as [<- | [<- | [<- | []]]]; auto |].
  split; [discriminate | exact Hdigits].
Qed.

(** ** Decimal numerals *)

Lemma pretty_N_char_digit (d : N) : is_digit (pretty_N_char d) = true.
Proof. unfold pretty_N_char. repeat case_match; reflexivity. Qed.

Lemma pretty_N_char_value (d : N) :
  (d < 10)%N -> Z.of_N (N_of_ascii (pretty_N_char d)) - 48 = Z.of_N d.
Proof.
  intros Hd.
  assert (d = 0 \/ d = 1 \/ d = 2 \/ d = 3 \/ d = 4 \/ d = 5 \/ d = 6
          \/ d = 7 \/ d = 8 \/ d = 9)%N as H by lia.
  repeat destruct H as [-> | H]; try subst d; reflexivity.
Qed.

Lemma pretty_N_go_digits (x : N) (s : string) :
  all_digits s = true -> all_digits (pretty_N_go x s) = true.
Proof.
  revert s. induction (N.lt_wf_0 x) as [x _ IH]; intros s Hs.
  destruct (decide (0 < x)%N) as [Hx | Hx].
  - rewrite pretty_N_go_step by done.
    apply IH; [apply N.div_lt; lia |].
    simpl. rewrite pretty_N_char_digit, Hs. reflexivity.
  - assert (x = 0%N) as -> by lia. rewrite pretty_N_go_0. exact Hs.
Qed.

Lemma pretty_N_go_nonempty (x : N) (s : string) :
  s <> "" -> pretty_N_go x s <> "".
Proof.
  revert s. induction (N.lt_wf_0 x) as [x _ IH]; intros s Hs.
  destruct (decide (0 < x)%N) as [Hx | Hx].
  - rewrite pretty_N_go_step by done.
    apply IH; [apply N.div_lt; lia | discriminate].
  - assert (x = 0%N) as -> by lia. rewrite pretty_N_go_0. exact Hs.
Qed.

Lemma pretty_N_go_value (x : N) :
  exists k, 0 <= k /\ forall acc s,
    digits_value acc (pretty_N_go x s)
    = digits_value (acc * 10 ^ k + Z.of_N x) s.
Proof.
  induction (N.lt_wf_0 x) as [x _ IH].
  destruct (decide (0 < x)%N) as [Hx | Hx].
  - destruct (IH (x `div` 10)%N) as (k & Hk & Hvalue);
      [apply N.div_lt; lia |].
    exists (k + 1). split; [lia |]. intros acc s.
    rewrite pretty_N_go_step, Hvalue by done. simpl. f_equal.
    rewrite pretty_N_char_value by (apply N.mod_lt; lia).
    rewrite Z.pow_add_r, N2Z.inj_div, N2Z.inj_mod by lia.
    change (Z.of_N 10) with 10.
    pose proof (Z.div_mod (Z.of_N x) 10 ltac:(lia)). lia.
  - assert (x = 0%N) as -> by lia. exists 0. split; [lia |].
    intros acc s. rewrite pretty_N_go_0. f_equal. simpl. lia.
Qed.

(** The numeral of a non-negative integer is a non-empty run of digits
    that reads back as the integer. *)
Lemma pretty_numeral (n : Z) :
  0 <= n ->
  pretty n <> "" /\ all_digits (pretty n) = true
  /\ digits_value 0 (pretty n) = n.
Proof.
  intros Hn. destruct n as [| p | p]; [| | lia].
  - repeat split. discriminate.
  - unfold pretty, pretty_Z, pretty, pretty_positive, pretty, pretty_N.
    rewrite decide_False by discriminate.
    split; [| split].
    + rewrite pretty_N_go_step by lia.
      apply pretty_N_go_nonempty. discriminate.
    + apply pretty_N_go_digits. reflexivity.
    + destruct (pretty_N_go_value (N.pos p)) as (k & _ & Hvalue).
      rewrite Hvalue. simpl. lia.
Qed.

(** X1. [extractCatalogInfo] returns exactly for the well-formed catalog
    ids (prefix, kind [movies] or [series], optional [-new] or [-popular],
    a dash, one or more digits and nothing after them), with the kind and
    the integer the digits denote; for every other string it throws
    ['Invalid catalog id']. *)
Theorem extractCatalogInfo_accepts_exactly (id : string) :
  (forall info,
     extractCatalogInfo id = Fulfilled info <->
     exists digits, well_formed_catalog_id id (catalogType info) digits
                    /\ providerId info = parseInt_digits digits)
  /\ (forall message,
        extractCatalogInfo id = Rejected message <->
        message = "Invalid catalog id"
        /\ forall kind digits, ~ well_formed_catalog_id id kind digits).
Proof.
  unfold extractCatalogInfo. split.
  - intros info. split.
    + destruct (match_catalog_id id) as [[kind digits] |] eqn:Hmatch;
        [| discriminate].
      intros [= <-]. exists digits. split; [| reflexivity].
      apply match_catalog_id_sound, Hmatch.
    + intros (digits & (variant & -> & Hkind & Hvariant & Hne & Hdigits) & Hid).
      rewrite (match_catalog_id_complete _ _ _ Hkind Hvariant Hne Hdigits).
      destruct info as [kind provider]. simpl in *. subst. reflexivity.
  - intros message. split.
    + destruct (match_catalog_id id) as [[kind digits] |] eqn:Hmatch;
        [discriminate |].
      intros [= <-]. split; [reflexivity |].
      intros kind digits (variant & -> & Hkind & Hvariant & Hne & Hdigits).
      rewrite (match_catalog_id_complete _ _ _ Hkind Hvariant Hne Hdigits)
        in Hmatch.
      discriminate Hmatch.
    + intros [-> Hnone].
      destruct (match_catalog_id id) as [[kind digits] |] eqn:Hmatch;
        [| reflexivity].
      destruct (Hnone kind digits). apply match_catalog_id_sound, Hmatch.
Qed.

Lemma extractCatalogInfo_accepts_exactly_witness :
  extractCatalogInfo "tmdb-discover-movies-new-0042"
  = Fulfilled {| catalogType := "movies"; providerId := Finite 42 0 |}
  /\ extractCatalogInfo "tmdb-discover-movies-new-42x"
     = Rejected "Invalid catalog id".
Proof.
  split.
  - apply (extractCatalogInfo_accepts_exactly "tmdb-discover-movies-new-0042").
    exists "0042". split; [| reflexivity].
    exists "-new". split; [reflexivity |]. split; [auto |]. split; [auto |].
    split; [discriminate | reflexivity].
  - apply (extractCatalogInfo_accepts_exactly "tmdb-discover-movies-new-42x").
    split; [reflexivity |].
    intros kind digits Hwf.
    assert (extractCatalogInfo "tmdb-discover-movies-new-42x"
            = Fulfilled {| catalogType := kind;
                           providerId := parseInt_digits digits |}) as H.
    { apply extractCatalogInfo_accepts_exactly.
      exists digits. split; [exact Hwf | reflexivity]. }
    discriminate H.
Defined.

(** X2. Round trip: the catalog id written from a kind, any of the three
    variants and a provider number [0 <= n < 2^53] in decimal is read
    back as that kind and that number; the variant leaves no trace in the
    result. *)
Theorem extractCatalogInfo_round_trip (kind variant : string) (n : Z) :
  kind = "movies" \/ kind = "series" ->
  variant = "-new" \/ variant = "-popular" \/ variant = "" ->
  0 <= n < 2 ^ 53 ->
  extractCatalogInfo (catalog_id kind variant (pretty n))
  = Fulfilled {| catalogType := kind; providerId := Finite n 0 |}.
Proof.
  intros Hkind Hvariant Hn.
  destruct (pretty_numeral n ltac:(lia)) as (Hne & Hdigits & Hvalue).
  unfold extractCatalogInfo.
  rewrite (match_catalog_id_complete _ _ _ Hkind Hvariant Hne Hdigits).
  unfold parseInt_digits, integer_to_number. rewrite Hvalue.
  destruct (Z.ltb_spec (Z.abs n) (2 ^ 53)) as [_ | Hbig]; [reflexivity | lia].
Qed.

Lemma extractCatalogInfo_round_trip_witness :
  extractCatalogInfo "tmdb-discover-series-popular-337"
  = Fulfilled {| catalogType := "series"; providerId := Finite 337 0 |}.
Proof.
  apply (extractCatalogInfo_round_trip "series" "-popular" 337); auto; lia.
Defined.

(** ** Configuration parsing *)

(** X3. [parseConfigParameters] never rejects.  Absent or empty input
    gives the empty configuration without any call; input that decodes
    and parses gives the parsed value without any call; when decoding or
    parsing throws, the only call is one error log carrying the message,
    and the result is the empty configuration. *)
Theorem parseConfigParameters_contained {Config : Type}
    (empty_object : Config)
    (decodeURIComponent : string -> outcome string)
    (JSON_parse : string -> outcome Config)
    (configParameters : option string)
    (W : Type) (handle : forall X, call X -> W -> outcome X * W) (w : W) :
  let p := parseConfigParameters empty_object decodeURIComponent JSON_parse
             configParameters in
  (exists config, result_of handle p w = Fulfilled config)
  /\ (Js.truthy configParameters = false ->
      run handle p w = (Fulfilled empty_object, w, []))
  /\ (forall text, configParameters = Some text -> text <> "" ->
        match config_failure decodeURIComponent JSON_parse text with
        | None =>
            exists decoded,
              decodeURIComponent text = Fulfilled decoded
              /\ run handle p w = (JSON_parse decoded, w, [])
        | Some message =>
            result_of handle p w = Fulfilled empty_object
            /\ exists o,
                 trace_of handle p w
                 = [Ev (log error ("Error parsing configParameters: "
                                   +:+ message)) o]
        end).
Proof.
  intros p. subst p.
  unfold parseConfigParameters, config_failure, result_of, trace_of.
  destruct configParameters as [text |]; simpl.
  - destruct (String.eqb_spec text "") as [-> | Hne]; simpl.
    { split; [eauto |]. split; [reflexivity |].
      intros text [= <-] Hempty. contradiction. }
    destruct (decodeURIComponent text) as [decoded | message] eqn:Hdecode;
      simpl;
      [destruct (JSON_parse decoded) as [parsed | message] eqn:Hparse; simpl |];
      try (destruct (handle _ _ w) as [o w1]; simpl).
    all: split; [eauto |]; split; [discriminate |].
    all: intros text' [= <-] _; rewrite Hdecode; simpl; rewrite ?Hparse; eauto.
    exists decoded. rewrite Hparse. auto.
  - split; [eauto |]. split; [reflexivity |]. intros text H. discriminate H.
Qed.

Lemma parseConfigParameters_contained_witness :
  run scripted (parseConfigParameters [] plain_decode tiny_parse (Some "[7]"))
      bleak
  = (Fulfilled [7], bleak, [])
  /\ result_of scripted
       (parseConfigParameters [] plain_decode tiny_parse (Some "%7B%7D")) bleak
     = Fulfilled [].
Proof.
  split.
  - destruct (parseConfigParameters_contained [] plain_decode tiny_parse
                (Some "[7]") Answers scripted bleak) as (_ & _ & Hparsed).
    destruct (Hparsed "[7]" eq_refl ltac:(discriminate)) as (decoded & Hd & Hrun).
    injection Hd as <-. exact Hrun.
  - destruct (parseConfigParameters_contained [] plain_decode tiny_parse
                (Some "%7B%7D") Answers scripted bleak) as (_ & _ & Hfailed).
    exact (proj1 (Hfailed "%7B%7D" eq_refl ltac:(discriminate))).
Defined.

(** ** Poster resolution: which calls are made, and when *)

Lemma getPosterUrl_rejection_post (BASE_URL : option string)
    (content : Poster.content) (catalogType language : string)
    (rpdbApiKey : option string) :
  post (getPosterUrl BASE_URL content catalogType language rpdbApiKey)
       (fun t r =>
          forall message,
            (r = Rejected message <-> existsb (read_rejected message) t = true)
            /\ (existsb (read_rejected message) t = true -> length t = 1%nat)).
Proof.
  unfold getPosterUrl, ratedPoster.
  destruct (Js.truthy (Poster.poster_path content)); simpl.
  - answer.
    all: intros msg; simpl; rewrite ?orb_false_r.
    all: try (split; [split; intros H; discriminate H | intros H; discriminate H]).
    split; [| reflexivity].
    split; [intros [= ->]; apply String.eqb_refl |].
    intros H. apply String.eqb_eq in H. subst. reflexivity.
  - intros msg. split; [split |]; intros H; discriminate H.
Qed.

Lemma truthy_Some (v : option string) :
  Js.truthy v = true -> exists s, v = Some s /\ s <> "".
Proof.
  destruct v as [s |]; [| discriminate]. simpl.
  intros H. exists s. split; [reflexivity |].
  apply String.eqb_neq, negb_true_iff, H.
Qed.

(** Names the string behind a truthy optional value in the goal. *)
Ltac truthy_value :=
  match goal with
  | H : Js.truthy ?v = true |- context [Fulfilled ?v] =>
      let Hv := fresh "Hv" in
      destruct (truthy_Some v H) as (? & Hv & ?); rewrite Hv in *
  end.

Lemma getPosterUrl_cache_write_post (BASE_URL : option string)
    (content : Poster.content) (catalogType language : string)
    (rpdbApiKey : option string) :
  let posterId := "poster:" +:+ pretty (Poster.id content) in
  let rpdbImage := getRpdbPoster catalogType (Poster.id content) language
                     (default "" rpdbApiKey) in
  post (getPosterUrl BASE_URL content catalogType language rpdbApiKey)
       (fun t r =>
          Forall (eq (posterId, rpdbImage)) (cache_writes t)
          /\ existsb is_cache_write t = existsb probe_ok t
          /\ (existsb is_cache_write t = true ->
              existsb write_rejected t = false ->
              r = Fulfilled (Some rpdbImage)
              /\ existsb is_cloud_query t = false)
          /\ (existsb write_rejected t = true ->
              existsb is_cloud_query t = true
              /\ exists poster, r = Fulfilled (Some poster))).
Proof.
  intros posterId rpdbImage. unfold getPosterUrl, ratedPoster.
  fold posterId rpdbImage.
  destruct (Js.truthy (Poster.poster_path content)); simpl.
  - answer. all: settle.
    all: try (repeat constructor; fail).
    all: try truthy_value; eauto.
  - settle. constructor.
Qed.

Lemma getPosterUrl_render_post (BASE_URL : option string)
    (content : Poster.content) (catalogType language : string)
    (rpdbApiKey : option string) :
  post (getPosterUrl BASE_URL content catalogType language rpdbApiKey)
       (fun t r =>
          Forall (eq (baseUrl BASE_URL +:+ "/cache-rated-poster",
                      {| posterUrl := tmdbFallbackUrl content;
                         rating := posterRating content;
                         contentId := cloudKey content |}))
                 (render_requests t)
          /\ (existsb is_render t = true -> existsb cloud_miss t = true)
          /\ (forall created, existsb (render_created created) t = true ->
                              r = Fulfilled (Some created))
          /\ (existsb cloud_rejected t = true ->
              r = Fulfilled (Some (tmdbFallbackUrl content))
              /\ existsb is_render t = false)).
Proof.
  unfold getPosterUrl, ratedPoster.
  destruct (Js.truthy (Poster.poster_path content)); simpl.
  - answer. all: settle.
    all: try (repeat constructor; fail).
  - settle. constructor.
Qed.

Lemma getPosterUrl_budget_post (BASE_URL : option string)
    (content : Poster.content) (catalogType language : string)
    (rpdbApiKey : option string) :
  post (getPosterUrl BASE_URL content catalogType language rpdbApiKey)
       (fun t _ =>
          (count is_cache_read t <= 1 /\ count is_probe t <= 1
           /\ count is_cache_write t <= 1 /\ count is_cloud_query t <= 1
           /\ count is_render t <= 1)%nat
          /\ (Js.truthy rpdbApiKey = false ->
              existsb is_probe t = false
              /\ existsb is_cache_access t = false)).
Proof.
  unfold getPosterUrl, ratedPoster, count.
  destruct (Js.truthy (Poster.poster_path content)); simpl.
  - answer. all: repeat split; simpl; try lia; try discriminate; reflexivity.
  - repeat split; simpl; lia.
Qed.

Section PosterCalls.

Variables (BASE_URL : option string) (content : Poster.content).
Variables (catalogType language : string) (rpdbApiKey : option string).
Context {W : Type} (handle : forall X, call X -> W -> outcome X * W) (w : W).

Let p := getPosterUrl BASE_URL content catalogType language rpdbApiKey.
Let posterId := "poster:" +:+ pretty (Poster.id content).
Let rpdbImage := getRpdbPoster catalogType (Poster.id content) language
                   (default "" rpdbApiKey).

(** X4. Without a paid-service key (absent or empty) [getPosterUrl] never
    probes the paid service and never reads or writes the poster cache. *)
Theorem getPosterUrl_without_key :
  Js.truthy rpdbApiKey = false ->
  existsb is_probe (trace_of handle p w) = false
  /\ existsb is_cache_access (trace_of handle p w) = false.
Proof.
  intros Hkey.
  exact (proj2 (post_run handle p _ w
                  (getPosterUrl_budget_post BASE_URL content catalogType
                     language rpdbApiKey)) Hkey).
Qed.

(** X5. [getPosterUrl] rejects exactly when the cache read is rejected,
    with the message of that rejection, and then the cache read is the
    only call it made. *)
Theorem getPosterUrl_rejects_with_cache_read (message : string) :
  (result_of handle p w = Rejected message
   <-> existsb (read_rejected message) (trace_of handle p w) = true)
  /\ (existsb (read_rejected message) (trace_of handle p w) = true ->
      length (trace_of handle p w) = 1%nat).
Proof.
  exact (post_run handle p _ w
           (getPosterUrl_rejection_post BASE_URL content catalogType language
              rpdbApiKey) message).
Qed.

(** X6. The poster cache is written exactly in the resolutions whose
    probe answered 200, always under the key [poster:<id>] and with the
    probed URL; when the write is not rejected, that URL is the result
    and the cloud store is not consulted. *)
Theorem getPosterUrl_cache_write_discipline :
  Forall (eq (posterId, rpdbImage)) (cache_writes (trace_of handle p w))
  /\ existsb is_cache_write (trace_of handle p w)
     = existsb probe_ok (trace_of handle p w)
  /\ (existsb is_cache_write (trace_of handle p w) = true ->
      existsb write_rejected (trace_of handle p w) = false ->
      result_of handle p w = Fulfilled (Some rpdbImage)
      /\ existsb is_cloud_query (trace_of handle p w) = false).
Proof.
  pose proof (post_run handle p _ w
                (getPosterUrl_cache_write_post BASE_URL content catalogType
                   language rpdbApiKey)) as (H1 & H2 & H3 & _).
  auto.
Qed.

(** X7. When the probe answered 200 but the cache write is rejected, the
    found URL is given up: [getPosterUrl] goes on to the cloud store and
    still returns a URL. *)
Theorem getPosterUrl_failed_cache_write :
  existsb write_rejected (trace_of handle p w) = true ->
  existsb probe_ok (trace_of handle p w) = true
  /\ existsb is_cloud_query (trace_of handle p w) = true
  /\ exists poster, result_of handle p w = Fulfilled (Some poster).
Proof.
  intros Hwrite.
  pose proof (post_run handle p _ w
                (getPosterUrl_cache_write_post BASE_URL content catalogType
                   language rpdbApiKey)) as (_ & Hprobe & _ & Hfall).
  destruct (Hfall Hwrite) as [Hcloud Hresult].
  split; [| auto]. rewrite <- Hprobe.
  clear - Hwrite. induction (trace_of handle p w) as [| e t IH]; simpl in *;
    [discriminate Hwrite |].
  apply orb_prop in Hwrite as [He | Ht].
  - destruct e as [X c o]. destruct c; try discriminate He. reflexivity.
  - rewrite (IH Ht). apply orb_true_r.
Qed.

(** X8. When the render service reports success together with a URL,
    [getPosterUrl] returns that URL. *)
Theorem getPosterUrl_render_created (created : string) :
  existsb (render_created created) (trace_of handle p w) = true ->
  result_of handle p w = Fulfilled (Some created).
Proof.
  pose proof (post_run handle p _ w
                (getPosterUrl_render_post BASE_URL content catalogType
                   language rpdbApiKey)) as (_ & _ & Hcreated & _).
  apply Hcreated.
Qed.

(** X9. When the cloud-store query is rejected, [getPosterUrl] returns
    the raw fallback URL and does not call the render service. *)
Theorem getPosterUrl_cloud_store_down :
  existsb cloud_rejected (trace_of handle p w) = true ->
  result_of handle p w = Fulfilled (Some (tmdbFallbackUrl content))
  /\ existsb is_render (trace_of handle p w) = false.
Proof.
  pose proof (post_run handle p _ w
                (getPosterUrl_render_post BASE_URL content catalogType
                   language rpdbApiKey)) as (_ & _ & _ & Hdown).
  exact Hdown.
Qed.

(** X10. The render service is called only after the cloud store
    reported a miss, at [<base URL>/cache-rated-poster], with the raw
    fallback URL, the formatted rating and the cloud key as body; the
    base URL is [BASE_URL], or [http://localhost:7000] when that is
    absent or empty. *)
Theorem getPosterUrl_render_request :
  Forall (eq (baseUrl BASE_URL +:+ "/cache-rated-poster",
              {| posterUrl := tmdbFallbackUrl content;
                 rating := posterRating content;
                 contentId := cloudKey content |}))
         (render_requests (trace_of handle p w))
  /\ (existsb is_render (trace_of handle p w) = true ->
      existsb cloud_miss (trace_of handle p w) = true)
  /\ (Js.truthy BASE_URL = false -> baseUrl BASE_URL = "http://localhost:7000")
  /\ (forall base, BASE_URL = Some base -> base <> "" -> baseUrl BASE_URL = base).
Proof.
  pose proof (post_run handle p _ w
                (getPosterUrl_render_post BASE_URL content catalogType
                   language rpdbApiKey)) as (Hbody & Hmiss & _).
  split; [exact Hbody |]. split; [exact Hmiss |]. split.
  - intros Hbase. unfold baseUrl, Js.or_else. rewrite Hbase. reflexivity.
  - intros base -> Hne. unfold baseUrl, Js.or_else. simpl.
    destruct (String.eqb_spec base "") as [-> | _]; [contradiction | reflexivity].
Qed.

(** X11. One resolution makes at most one cache read, one probe, one
    cache write, one cloud-store query and one render call. *)
Theorem getPosterUrl_call_budget :
  (count is_cache_read (trace_of handle p w) <= 1
   /\ count is_probe (trace_of handle p w) <= 1
   /\ count is_cache_write (trace_of handle p w) <= 1
   /\ count is_cloud_query (trace_of handle p w) <= 1
   /\ count is_render (trace_of handle p w) <= 1)%nat.
Proof.
  exact (proj1 (post_run handle p _ w
                  (getPosterUrl_budget_post BASE_URL content catalogType
                     language rpdbApiKey))).
Qed.

End PosterCalls.

Lemma getPosterUrl_without_key_witness :
  existsb is_probe
    (trace_of scripted
       (getPosterUrl None (poster_part matrix) "movies" "en-US" None) bleak)
  = false.
Proof.
  exact (proj1 (getPosterUrl_without_key None (poster_part matrix) "movies"
                  "en-US" None scripted bleak eq_refl)).
Defined.

Lemma getPosterUrl_rejects_with_cache_read_witness :
  result_of scripted
    (getPosterUrl None (poster_part matrix) "movies" "en-US" (Some "t2-key"))
    cache_down
  = Rejected "connection refused".
Proof.
  apply (getPosterUrl_rejects_with_cache_read None (poster_part matrix)
           "movies" "en-US" (Some "t2-key") scripted cache_down
           "connection refused").
  vm_compute. reflexivity.
Defined.

Lemma getPosterUrl_cache_write_discipline_witness :
  result_of (with_cache scripted)
    (getPosterUrl None (poster_part matrix) "movies" "en-US" (Some "t2-key"))
    (∅, probe_200)
  = Fulfilled (Some (getRpdbPoster "movies" 603 "en-US" "t2-key")).
Proof.
  destruct (getPosterUrl_cache_write_discipline None (poster_part matrix)
              "movies" "en-US" (Some "t2-key") (with_cache scripted)
              (∅, probe_200)) as (_ & _ & Hwritten).
  apply Hwritten; vm_compute; reflexivity.
Defined.

Lemma getPosterUrl_failed_cache_write_witness :
  existsb is_cloud_query
    (trace_of read_only_cache
       (getPosterUrl None (poster_part matrix) "movies" "en-US"
          (Some "t2-key")) probe_200)
  = true.
Proof.
  destruct (getPosterUrl_failed_cache_write None (poster_part matrix) "movies"
              "en-US" (Some "t2-key") read_only_cache probe_200)
    as (_ & Hcloud & _).
  - vm_compute. reflexivity.
  - exact Hcloud.
Defined.

Lemma getPosterUrl_render_created_witness :
  result_of scripted
    (getPosterUrl None (poster_part matrix) "movies" "en-US" None) rendering
  = Fulfilled (Some "https://cdn.example/new.jpg").
Proof.
  apply (getPosterUrl_render_created None (poster_part matrix) "movies"
           "en-US" None scripted rendering "https://cdn.example/new.jpg").
  vm_compute. reflexivity.
Defined.

Lemma getPosterUrl_cloud_store_down_witness :
  result_of scripted
    (getPosterUrl None (poster_part matrix) "movies" "en-US" None) cloud_down
  = Fulfilled (Some "https://image.tmdb.org/t/p/w500/matrix.jpg").
Proof.
  refine (proj1 (getPosterUrl_cloud_store_down None (poster_part matrix)
                   "movies" "en-US" None scripted cloud_down _)).
  vm_compute. reflexivity.
Defined.

(** ** Cloud keys *)

Lemma digit_not_dash (c : ascii) : is_digit c = true -> Ascii.eqb c "-" = false.
Proof.
  intros Hc. destruct (Ascii.eqb_spec c "-") as [-> | _];
    [discriminate Hc | reflexivity].
Qed.

Lemma split_dash_0_digits (digits rest : string) :
  all_digits digits = true ->
  Js.split_dash_0 (digits +:+ String "-" rest) = digits.
Proof.
  induction digits as [| c digits IH]; intros Hdigits; [reflexivity |].
  simpl in Hdigits. apply andb_prop in Hdigits as [Hc Hrest].
  rewrite append_String. simpl. rewrite (digit_not_dash c Hc), IH by exact Hrest.
  reflexivity.
Qed.

Lemma pretty_dash_inj (z1 z2 : Z) (r1 r2 : string) :
  pretty z1 +:+ String "-" r1 = pretty z2 +:+ String "-" r2 -> z1 = z2.
Proof.
  assert (forall z r, 0 <= z ->
            Js.split_dash_0 (pretty z +:+ String "-" r) = pretty z) as Hseg.
  { intros z r Hz. apply split_dash_0_digits, pretty_numeral, Hz. }
  assert (forall z r, 0 <= z ->
            exists d rest, pretty z +:+ String "-" r = String d rest
                           /\ is_digit d = true) as Hhead.
  { intros z r Hz. destruct (pretty_numeral z Hz) as (Hne & Hdigits & _).
    destruct (pretty z) as [| d ds]; [contradiction |].
    simpl in Hdigits. apply andb_prop in Hdigits as [Hd _].
    exists d, (ds +:+ String "-" r). split; [apply append_String | exact Hd]. }
  assert (forall p r, pretty (Z.neg p) +:+ String "-" r
                      = String "-" (pretty (Z.pos p) +:+ String "-" r)) as Hneg.
  { intros p r. reflexivity. }
  intros H.
  destruct z1 as [| p1 | p1]; destruct z2 as [| p2 | p2].
  all: try (apply (f_equal Js.split_dash_0) in H;
            rewrite !Hseg in H by lia; apply (inj pretty) in H; exact H).
  all: rewrite ?Hneg in H.
  all: try (destruct (Hhead 0 r1 ltac:(lia)) as (d & rest & Heq & Hd);
            rewrite Heq in H; injection H as -> _; discriminate Hd).
  all: try (destruct (Hhead 0 r2 ltac:(lia)) as (d & rest & Heq & Hd);
            rewrite Heq in H; injection H as <- _; discriminate Hd).
  all: try (destruct (Hhead (Z.pos p1) r1 ltac:(lia)) as (d & rest & Heq & Hd);
            rewrite Heq in H; injection H as -> _; discriminate Hd).
  all: try (destruct (Hhead (Z.pos p2) r2 ltac:(lia)) as (d & rest & Heq & Hd);
            rewrite Heq in H; injection H as <- _; discriminate Hd).
  injection H as H.
  apply (f_equal Js.split_dash_0) in H.
  rewrite !Hseg in H by lia. apply (inj pretty) in H. congruence.
Qed.

(** X12. The cloud key determines the item id and the formatted rating:
    two items with the same cloud key have the same id and the same
    rating string, so the same id with different formatted ratings gives
    different keys. *)
Theorem cloudKey_injective (c1 c2 : Poster.content) :
  cloudKey c1 = cloudKey c2 ->
  Poster.id c1 = Poster.id c2 /\ posterRating c1 = posterRating c2.
Proof.
  unfold cloudKey. intros H.
  assert (Poster.id c1 = Poster.id c2) as Hid by (eapply pretty_dash_inj, H).
  split; [exact Hid |]. rewrite Hid in H.
  apply (inj (String.app _)) in H. injection H as H. exact H.
Qed.

Lemma cloudKey_injective_witness :
  let a := {| Poster.id := 603; Poster.poster_path := Some "/a.jpg";
              Poster.vote_average := Some (Finite 8631148685855556 (-50)) |} in
  let b := {| Poster.id := 603; Poster.poster_path := Some "/b.jpg";
              Poster.vote_average := Some (Finite 123 (-4)) |} in
  Poster.id a = Poster.id b /\ posterRating a = posterRating b.
Proof.
  intros a b. apply (cloudKey_injective a b). vm_compute. reflexivity.
Defined.

(** ** Ratings at the edges *)

Lemma small_magnitude (m e : Z) :
  Z.abs m * 2 ^ Z.max 0 e <= 10 * 2 ^ Z.max 0 (- e) ->
  Number.at_least_1e21 m e = false.
Proof.
  unfold Number.at_least_1e21. intros Hrange.
  destruct (Z.leb_spec 0 e) as [He | He].
  - rewrite (Z.max_r 0 e), (Z.max_l 0 (- e)) in Hrange by lia.
    change (2 ^ 0) with 1 in Hrange. apply Z.leb_gt.
    assert (10 < 10 ^ 21) by reflexivity. lia.
  - rewrite (Z.max_l 0 e), (Z.max_r 0 (- e)) in Hrange by lia.
    change (2 ^ 0) with 1 in Hrange. apply Z.leb_gt.
    assert (0 < 2 ^ (- e)) by (apply Z.pow_pos_nonneg; lia).
    assert (10 < 10 ^ 21) by reflexivity. nia.
Qed.

(** X14. A vote average that is positive but below one twentieth is not
    treated as absent: it formats to ["0.0"], in the cloud poster key and
    in the rating field, where a vote average of exactly 0 gives ['NR']
    and [null]. *)
Theorem tiny_vote_average_is_rated (item : Item.t) (m e : Z) :
  Item.vote_average item = Some (Finite m e) ->
  0 < m -> e < 0 -> 20 * m < 2 ^ (- e) ->
  posterRating (poster_part item) = "0.0"
  /\ cloudKey (poster_part item) = pretty (Item.id item) +:+ "-" +:+ "0.0"
  /\ imdbRating_of item = Some "0.0".
Proof.
  intros Hvote Hm He Hsmall.
  assert (Number.toFixed1 (Finite m e) = "0.0") as Hformat.
  { assert (Number.tenths m e = 0) as Htenths.
    { unfold Number.tenths.
      destruct (Z.leb_spec 0 e) as [? | _]; [lia |].
      replace (1 - e) with (Z.succ (- e)) by lia.
      rewrite Z.pow_succ_r by lia.
      apply Z.div_small. lia. }
    unfold Number.toFixed1.
    rewrite small_magnitude.
    - rewrite Htenths. destruct (Z.ltb_spec m 0); [lia | reflexivity].
    - rewrite (Z.max_l 0 e), (Z.max_r 0 (- e)) by lia.
      change (2 ^ 0) with 1. lia. }
  assert (Number.truthy (Finite m e) = true) as Htruthy.
  { simpl. apply negb_true_iff, Z.eqb_neq. lia. }
  unfold cloudKey, posterRating, imdbRating_of, rated, Number.parseFloat.
  simpl. rewrite Hvote, Htruthy, Hformat. auto.
Qed.

Lemma tiny_vote_average_is_rated_witness :
  let item := {| Item.id := 9; Item.poster_path := None;
                 Item.vote_average := Some (Finite 1 (-5));
                 Item.backdrop_path := None; Item.title := None;
                 Item.name := None; Item.overview := None;
                 Item.release_date := None; Item.first_air_date := None;
                 Item.genre_ids := None |} in
  cloudKey (poster_part item) = "9-0.0" /\ imdbRating_of item = Some "0.0".
Proof.
  intros item.
  destruct (tiny_vote_average_is_rated item 1 (-5) eq_refl ltac:(lia)
              ltac:(lia) ltac:(vm_compute; reflexivity)) as (_ & Hkey & Hrating).
  split; [rewrite Hkey; vm_compute; reflexivity | exact Hrating].
Defined.

(** ** Kinds of calls *)

Lemma only_app (ks : list call_kind) (t1 t2 : list event) :
  only ks (t1 ++ t2) = only ks t1 && only ks t2.
Proof. apply forallb_app. Qed.

Lemma only_weaken (ks ks' : list call_kind) (t : list event) :
  (forall k, member k ks = true -> member k ks' = true) ->
  only ks t = true -> only ks' t = true.
Proof.
  intros Hsub. unfold only. rewrite !forallb_forall. auto.
Qed.

Lemma only_existsb (ks : list call_kind) (f : event -> bool) (t : list event) :
  (forall e, member (kind_of e) ks = true -> f e = false) ->
  only ks t = true -> existsb f t = false.
Proof.
  intros Hf Honly. unfold only in Honly. rewrite forallb_forall in Honly.
  apply not_true_is_false. intros Hex.
  apply existsb_exists in Hex as (e & Hin & He).
  rewrite (Hf e (Honly e Hin)) in He. discriminate He.
Qed.

(** Decides [member] for a kind that is a variable. *)
Ltac by_kind :=
  let k := fresh "k" in
  intros k; destruct k; simpl; intros; try reflexivity; try discriminate.

Ltac by_event :=
  let e := fresh "e" in
  let X := fresh "X" in
  let c := fresh "c" in
  let o := fresh "o" in
  intros e; destruct e as [X c o]; destruct c; simpl; intros;
  try reflexivity; try discriminate.

(** ** One item, step by step *)

Lemma poster_step_kinds (BASE_URL : option string) (content : Poster.content)
    (catalogType language : string) (rpdbApiKey : option string) :
  post (getPosterUrl BASE_URL content catalogType language rpdbApiKey)
       (fun t r =>
          only ([CloudQuery; Render; LogLine]
                ++ (if Js.truthy rpdbApiKey
                    then [CacheRead; Probe; CacheWrite] else [])) t = true
          /\ (forall v, r = Fulfilled v ->
                (v = None <-> Js.truthy (Poster.poster_path content) = false)
                /\ existsb read_failed t = false)
          /\ ((exists message, r = Rejected message) ->
              existsb read_failed t = true)).
Proof.
  unfold getPosterUrl, ratedPoster.
  destruct (Js.truthy (Poster.poster_path content)) eqn:Hpath; simpl.
  - answer.
    all: split; [reflexivity |].
    all: split; [intros v [= <-] | intros [? H]; try discriminate H; reflexivity].
    all: split; [| reflexivity].
    all: split; [intros Hnone | intros H; discriminate H].
    all: try discriminate Hnone.
    all: exfalso; settle.
  - split; [reflexivity |]. split; [| intros [? H]; discriminate H].
    intros v [= <-]. split; [tauto | reflexivity].
Qed.

Lemma post_conj {A : Type} (p : prog A) (P Q : list event -> A -> Prop) :
  post p P -> post p Q -> post p (fun t a => P t a /\ Q t a).
Proof.
  revert P Q. induction p as [a | X c k IH]; simpl; intros P Q HP HQ.
  - auto.
  - intros o. apply (IH o _ _ (HP o) (HQ o)).
Qed.

Lemma only_genre_lookups (ks : list call_kind) (t : list event) :
  member GenreQuery ks = false -> only ks t = true -> genre_lookups t = [].
Proof.
  intros Hks Honly. induction t as [| e t IH]; [reflexivity |].
  simpl in Honly. apply andb_prop in Honly as [He Ht].
  unfold genre_lookups in *. rewrite omap_cons_eq, (IH Ht).
  destruct e as [X c o]. destruct c; try reflexivity.
  simpl in He. rewrite Hks in He. discriminate He.
Qed.

Lemma logo_step_kinds (fanartApiKey : option string) (tmdbId : Z)
    (language : string) :
  post (if Js.truthy fanartApiKey
        then fetchLogo tmdbId language (default "" fanartApiKey)
        else ret None)
       (fun t r =>
          only (if Js.truthy fanartApiKey then [LogoRequest; LogLine] else []) t
          = true
          /\ exists logo, r = Fulfilled logo).
Proof.
  unfold fetchLogo. answer. all: split; [reflexivity | eauto].
Qed.

Lemma imdb_step_kinds (tmdbApiKey : option string) (target : string)
    (failure : string -> string) :
  post (if Js.truthy tmdbApiKey
        then try_catch
               (let* externalIds := perform (makeRequest target
                                               (default "" tmdbApiKey)) in
                ret (imdb_id externalIds))
               (fun message =>
                  do* log_ error (failure message) in ret None)
        else ret None)
       (fun t r =>
          only (if Js.truthy tmdbApiKey
                then [ExternalIdsRequest; LogLine] else []) t = true
          /\ exists imdbId,
               r = Fulfilled imdbId
               /\ (forall imdb, existsb (external_id_found imdb) t = true ->
                                imdbId = Some imdb /\ Js.truthy imdbId = true)
               /\ (existsb external_id_missing t = true ->
                   Js.truthy imdbId = false)
               /\ (Js.truthy tmdbApiKey = false -> imdbId = None)).
Proof.
  answer.
  all: split; [reflexivity |]; eexists; split; [reflexivity |].
  all: repeat split; try discriminate; try reflexivity.
  - rewrite orb_false_r in H. apply andb_prop in H as [_ H].
    apply bool_decide_eq_true in H. exact H.
  - rewrite orb_false_r in H. apply andb_prop in H as [H _]. exact H.
  - simpl. rewrite orb_false_r. intros H. apply negb_true_iff in H. exact H.
Qed.

Lemma genre_callback_kinds (genreId : Z) (type language : string) :
  post (let* genreName := getGenreName genreId type language in ret genreName)
       (fun t _ => only [GenreQuery] t = true).
Proof.
  unfold getGenreName, await_then, try_catch, perform, ret, throw. simpl.
  intros [[| row rows] | message]; reflexivity.
Qed.

Lemma settle_genres_kinds (type language : string) (genre_ids : list Z) :
  post (settle_all
          (map (fun genreId =>
                  let* genreName := getGenreName genreId type language in
                  ret genreName) genre_ids))
       (fun t _ => only [GenreQuery] t = true /\ (genre_ids = [] -> t = [])).
Proof.
  induction genre_ids as [| genreId rest IH].
  - simpl. auto.
  - cbn [map settle_all]. apply post_bind.
    eapply post_mono; [| apply genre_callback_kinds].
    intros t1 r1 Ht1. apply post_bind.
    eapply post_mono; [| apply IH].
    intros t2 os [Ht2 _]. simpl.
    rewrite app_nil_r, only_app, Ht1, Ht2. split; [reflexivity | discriminate].
Qed.

Lemma genres_step_kinds (type language : string) (genre_ids : option (list Z)) :
  post (match genre_ids with
        | Some genre_ids =>
            let* genres :=
              Promise_all (map (fun genreId =>
                let* genreName := getGenreName genreId type language in
                ret genreName) genre_ids) in
            ret (filter_Boolean genres)
        | None => ret []
        end)
       (fun t r =>
          only (match genre_ids with
                | Some (_ :: _) => [GenreQuery]
                | _ => []
                end) t = true
          /\ map fst (genre_lookups t)
             = map (fun genreId => Some (SqlNumber genreId))
                   (default [] genre_ids)).
Proof.
  destruct genre_ids as [genre_ids |]; simpl; [| auto].
  apply post_await_then. unfold Promise_all. apply post_bind.
  eapply post_mono;
    [| apply post_conj;
         [apply settle_genres_kinds | apply settle_genres_post]].
  intros t os [[Honly Hnone] (_ & Hids & _)]. simpl.
  assert (only match genre_ids with
               | [] => []
               | _ :: _ => [GenreQuery]
               end t = true) as Hkinds.
  { destruct genre_ids; [rewrite Hnone by reflexivity; reflexivity | exact Honly]. }
  destruct (all_fulfilled os); simpl; rewrite !app_nil_r; auto.
Qed.

Lemma itemRecord_pure_post (BASE_URL : option string)
    (catalogType language : string)
    (rpdbApiKey fanartApiKey addWatchedTraktBtn hideTraktHistory
       traktUsername : option string)
    (origin : string) (tmdbApiKey : option string) (content : Item.t) :
  post (itemRecord BASE_URL fetchLogo catalogType language rpdbApiKey fanartApiKey
          addWatchedTraktBtn hideTraktHistory traktUsername origin tmdbApiKey
          content)
       (fun _ o => forall meta, o = Fulfilled meta ->
          Meta.defaultVideoId meta = Meta.id meta
          /\ pure_fields meta
             = (if String.eqb catalogType "movies" then "movie" else "series",
                if String.eqb catalogType "movies" then Item.title content
                else Item.name content,
                if Js.truthy (Item.backdrop_path content)
                then Some ("https://image.tmdb.org/t/p/w1280"
                           +:+ default "" (Item.backdrop_path content))
                else None,
                Item.overview content,
                releaseInfo_of catalogType content,
                imdbRating_of content,
                links_field
                  (links_of catalogType addWatchedTraktBtn hideTraktHistory
                     traktUsername origin content))).
Proof.
  unfold itemRecord.
  repeat (apply post_await_result; [intros message meta; discriminate | intros ?]).
  simpl. intros meta [= <-]. split; reflexivity.
Qed.

Lemma itemRecord_calls_post (BASE_URL : option string)
    (catalogType language : string)
    (rpdbApiKey fanartApiKey addWatchedTraktBtn hideTraktHistory
       traktUsername : option string)
    (origin : string) (tmdbApiKey : option string) (content : Item.t) :
  post (itemRecord BASE_URL fetchLogo catalogType language rpdbApiKey fanartApiKey
          addWatchedTraktBtn hideTraktHistory traktUsername origin tmdbApiKey
          content)
       (fun t r =>
          only (allowed_kinds rpdbApiKey fanartApiKey tmdbApiKey content) t
          = true
          /\ (existsb read_failed t = false ->
              map fst (genre_lookups t)
              = map (fun genreId => Some (SqlNumber genreId))
                    (default [] (Item.genre_ids content)))
          /\ forall meta, r = Fulfilled meta ->
               (Meta.poster meta = None
                <-> Js.truthy (Item.poster_path content) = false)
               /\ (forall imdb,
                     existsb (external_id_found imdb) t = true ->
                     Meta.id meta = imdb)
               /\ (existsb external_id_missing t = true ->
                   Meta.id meta = "tmdb:" +:+ pretty (Item.id content))
               /\ (Js.truthy tmdbApiKey = false ->
                   Meta.id meta = "tmdb:" +:+ pretty (Item.id content))).
Proof.
  set (K1 := [CloudQuery; Render; LogLine]
             ++ (if Js.truthy rpdbApiKey
                 then [CacheRead; Probe; CacheWrite] else [])).
  set (K2 := if Js.truthy fanartApiKey then [LogoRequest; LogLine] else []).
  set (K3 := if Js.truthy tmdbApiKey then [ExternalIdsRequest; LogLine] else []).
  set (K4 := match Item.genre_ids content with
             | Some (_ :: _) => [GenreQuery]
             | _ => []
             end).
  set (K := allowed_kinds rpdbApiKey fanartApiKey tmdbApiKey content).
  assert (forall k, member k K1 = true -> member k K = true) as HK1.
  { subst K1 K. unfold allowed_kinds.
    destruct (Js.truthy rpdbApiKey); by_kind. }
  assert (forall k, member k K2 = true -> member k K = true) as HK2.
  { subst K2 K. unfold allowed_kinds.
    destruct (Js.truthy rpdbApiKey), (Js.truthy fanartApiKey); by_kind. }
  assert (forall k, member k K3 = true -> member k K = true) as HK3.
  { subst K3 K. unfold allowed_kinds.
    destruct (Js.truthy rpdbApiKey), (Js.truthy fanartApiKey),
      (Js.truthy tmdbApiKey); by_kind. }
  assert (forall k, member k K4 = true -> member k K = true) as HK4.
  { subst K4 K. unfold allowed_kinds.
    destruct (Js.truthy rpdbApiKey), (Js.truthy fanartApiKey),
      (Js.truthy tmdbApiKey), (Item.genre_ids content) as [[| ? ?] |]; by_kind. }
  assert (member GenreQuery K1 = false /\ member GenreQuery K2 = false
          /\ member GenreQuery K3 = false) as (HG1 & HG2 & HG3).
  { subst K1 K2 K3.
    destruct (Js.truthy rpdbApiKey), (Js.truthy fanartApiKey),
      (Js.truthy tmdbApiKey); auto. }
  assert (forall f t,
            (forall e, kind_of e <> ExternalIdsRequest -> f e = false) ->
            only K1 t = true \/ only K2 t = true \/ only K4 t = true ->
            existsb f t = false) as Hids.
  { intros f t Hf [H | [H | H]]; revert H; apply only_existsb;
      intros e He; apply Hf; intros Hkind; rewrite Hkind in He.
    - subst K1. destruct (Js.truthy rpdbApiKey); discriminate He.
    - subst K2. destruct (Js.truthy fanartApiKey); discriminate He.
    - subst K4. destruct (Item.genre_ids content) as [[| ? ?] |];
        discriminate He. }
  assert (forall imdb e, kind_of e <> ExternalIdsRequest ->
                         external_id_found imdb e = false) as Hfound.
  { intros imdb [X c o] He. destruct c; try reflexivity. destruct He. reflexivity. }
  assert (forall e, kind_of e <> ExternalIdsRequest ->
                    external_id_missing e = false) as Hmissing.
  { intros [X c o] He. destruct c; try reflexivity. destruct He. reflexivity. }
  unfold itemRecord.
  apply post_await_then. eapply post_mono; [| apply poster_step_kinds].
  intros t1 [posterUrl | message] (Hk1 & Hposter & Hrejected).
  2: { rewrite app_nil_r. split; [apply (only_weaken K1), Hk1; exact HK1 |].
       split; [| intros meta H; discriminate H].
       intros Hread1. rewrite Hrejected in Hread1 by eauto. discriminate Hread1. }
  destruct (Hposter posterUrl eq_refl) as [Hnull Hread1].
  apply post_await_then. eapply post_mono; [| apply logo_step_kinds].
  intros t2 r2 (Hk2 & logo & ->).
  apply post_await_then. eapply post_mono; [| apply imdb_step_kinds].
  intros t3 r3 (Hk3 & imdbId & -> & Hfound3 & Hmissing3 & Hnokey).
  apply post_await_then. eapply post_mono; [| apply genres_step_kinds].
  intros t4 r4 (Hk4 & Hlookups).
  assert (only K (t1 ++ t2 ++ t3 ++ t4) = true) as Honly.
  { rewrite !only_app, (only_weaken K1 K t1 HK1 Hk1),
      (only_weaken K2 K t2 HK2 Hk2), (only_weaken K3 K t3 HK3 Hk3),
      (only_weaken K4 K t4 HK4 Hk4). reflexivity. }
  assert (map fst (genre_lookups (t1 ++ t2 ++ t3 ++ t4))
          = map (fun genreId => Some (SqlNumber genreId))
                (default [] (Item.genre_ids content))) as Hall.
  { rewrite !genre_lookups_app, (only_genre_lookups K1 t1 HG1 Hk1),
      (only_genre_lookups K2 t2 HG2 Hk2), (only_genre_lookups K3 t3 HG3 Hk3).
    exact Hlookups. }
  destruct r4 as [genres | message]; simpl; rewrite ?app_nil_r.
  - split; [exact Honly |]. split; [intros _; exact Hall |].
    intros meta [= <-]. simpl.
    split; [exact Hnull |].
    split; [| split].
    + intros imdb. rewrite !existsb_app.
      rewrite (Hids _ t1 (Hfound imdb)), (Hids _ t2 (Hfound imdb)),
        (Hids _ t4 (Hfound imdb)) by auto.
      rewrite orb_false_r. simpl. intros H.
      destruct (Hfound3 imdb H) as [-> Htruthy].
      unfold Js.or_else. rewrite Htruthy. reflexivity.
    + rewrite !existsb_app.
      rewrite (Hids _ t1 Hmissing), (Hids _ t2 Hmissing), (Hids _ t4 Hmissing)
        by auto.
      rewrite orb_false_r. simpl. intros H.
      unfold Js.or_else. rewrite (Hmissing3 H). reflexivity.
    + intros Hkey. rewrite (Hnokey Hkey). reflexivity.
  - split; [exact Honly |]. split; [intros _; exact Hall |].
    intros meta H. discriminate H.
Qed.

Lemma processItem_facts (BASE_URL : option string)
    (catalogType language : string)
    (rpdbApiKey fanartApiKey addWatchedTraktBtn hideTraktHistory
       traktUsername : option string)
    (origin : string) (tmdbApiKey : option string) (content : Item.t) :
  post (processItem BASE_URL fetchLogo catalogType language rpdbApiKey fanartApiKey
          addWatchedTraktBtn hideTraktHistory traktUsername origin tmdbApiKey
          content)
       (callback_facts catalogType rpdbApiKey fanartApiKey addWatchedTraktBtn
          hideTraktHistory traktUsername origin tmdbApiKey content).
Proof.
  unfold processItem. apply post_try_catch. apply post_await_then.
  eapply post_mono;
    [| apply post_conj;
         [apply itemRecord_calls_post | apply itemRecord_pure_post]].
  intros t [meta | message] [(Honly & Hlookups & Hrecord) Hpure].
  - simpl. unfold callback_facts. rewrite !app_nil_r.
    split; [exact Honly |]. split; [exact Hlookups |].
    intros meta' [= <-].
    destruct (Hrecord meta eq_refl) as (H1 & H2 & H3 & H4).
    destruct (Hpure meta eq_refl) as (H5 & H6). auto 10.
  - simpl. intros logged. unfold callback_facts.
    rewrite !app_nil_r, only_app, existsb_app, genre_lookups_app, Honly.
    simpl. rewrite orb_false_r, app_nil_r.
    split; [reflexivity |]. split; [exact Hlookups |].
    intros meta H. discriminate H.
Qed.

(** ** One item: what its record and its calls depend on *)

Lemma existsb_impl (f g : event -> bool) (t : list event) :
  (forall e, f e = true -> g e = true) ->
  existsb f t = true -> existsb g t = true.
Proof.
  intros Hfg H. apply existsb_exists in H as (e & Hin & He).
  apply existsb_exists. eauto.
Qed.

Section ItemFacts.

Variables (BASE_URL : option string) (catalogType language : string).
Variables (rpdbApiKey fanartApiKey : option string).
Variables (addWatchedTraktBtn hideTraktHistory traktUsername : option string).
Variables (origin : string) (tmdbApiKey : option string) (content : Item.t).
Context {W : Type} (handle : forall X, call X -> W -> outcome X * W) (w : W).

Let p := processItem BASE_URL fetchLogo catalogType language rpdbApiKey fanartApiKey
           addWatchedTraktBtn hideTraktHistory traktUsername origin tmdbApiKey
           content.

Let facts :
  callback_facts catalogType rpdbApiKey fanartApiKey addWatchedTraktBtn
    hideTraktHistory traktUsername origin tmdbApiKey content
    (trace_of handle p w) (result_of handle p w)
  := post_run handle p _ w
       (processItem_facts BASE_URL catalogType language rpdbApiKey fanartApiKey
          addWatchedTraktBtn hideTraktHistory traktUsername origin tmdbApiKey
          content).

(** X15. The record of an item has a null poster exactly when the item
    has no poster path (absent or empty): with a poster path every
    failure of the poster tiers still leaves a URL in the record. *)
Theorem record_poster_null_iff_no_path (meta : Meta.t) :
  result_of handle p w = Fulfilled (Some meta) ->
  (Meta.poster meta = None <-> Js.truthy (Item.poster_path content) = false).
Proof.
  intros Hmeta. destruct facts as (_ & _ & Hrecord).
  exact (proj1 (Hrecord meta Hmeta)).
Qed.

(** X16. The identifier of a record is the external identifier when the
    external-ids endpoint answered with one, and [tmdb:<id>] when no
    database key is configured or the endpoint failed or answered
    without one; the default-video hint always repeats the identifier. *)
Theorem record_identifier (meta : Meta.t) :
  result_of handle p w = Fulfilled (Some meta) ->
  Meta.defaultVideoId meta = Meta.id meta
  /\ (forall imdb,
        existsb (external_id_found imdb) (trace_of handle p w) = true ->
        Meta.id meta = imdb)
  /\ (Js.truthy tmdbApiKey = false
      \/ existsb external_id_missing (trace_of handle p w) = true ->
      Meta.id meta = "tmdb:" +:+ pretty (Item.id content)).
Proof.
  intros Hmeta. destruct facts as (_ & _ & Hrecord).
  destruct (Hrecord meta Hmeta) as (_ & Hfound & Hmissing & Hnokey & Hhint & _).
  split; [exact Hhint |]. split; [exact Hfound |].
  intros [Hkey | Hmiss]; auto.
Qed.

(** X17. A failure of the external-ids fetch is not fatal: unless the
    cache read or a genre query is rejected, the record is produced, with
    the identifier [tmdb:<id>]. *)
Theorem external_ids_failure_not_fatal :
  existsb external_ids_failed (trace_of handle p w) = true ->
  existsb unguarded_rejection (trace_of handle p w) = false ->
  exists meta,
    result_of handle p w = Fulfilled (Some meta)
    /\ Meta.id meta = "tmdb:" +:+ pretty (Item.id content).
Proof.
  intros Hfailed Hguarded.
  pose proof (post_run handle p _ w
                (processItem_post BASE_URL catalogType language rpdbApiKey
                   fanartApiKey addWatchedTraktBtn hideTraktHistory
                   traktUsername origin tmdbApiKey content))
    as ([v Hv] & Hnull & _).
  destruct v as [meta |];
    [| rewrite (Hnull Hv) in Hguarded; discriminate Hguarded].
  exists meta. split; [exact Hv |].
  destruct facts as (_ & _ & Hrecord).
  destruct (Hrecord meta Hv) as (_ & _ & Hmissing & _).
  apply Hmissing. revert Hfailed. apply existsb_impl.
  intros [X c o]. destruct c; try discriminate. destruct o; [discriminate | auto].
Qed.

(** X18. An item causes only the calls its configuration allows: the
    paid service and the poster cache only with a paid-service key, the
    logo service only with a logo key, the external-ids endpoint only
    with a database key, genre queries only when the item lists genres. *)
Theorem item_calls_follow_configuration :
  only (allowed_kinds rpdbApiKey fanartApiKey tmdbApiKey content)
       (trace_of handle p w) = true
  /\ (Js.truthy rpdbApiKey = false ->
      existsb is_probe (trace_of handle p w) = false
      /\ existsb is_cache_access (trace_of handle p w) = false)
  /\ (Js.truthy fanartApiKey = false ->
      existsb is_logo_request (trace_of handle p w) = false)
  /\ (Js.truthy tmdbApiKey = false ->
      existsb is_external_ids_request (trace_of handle p w) = false)
  /\ (Item.genre_ids content = None \/ Item.genre_ids content = Some [] ->
      genre_lookups (trace_of handle p w) = []).
Proof.
  destruct facts as (Honly & _). split; [exact Honly |].
  unfold allowed_kinds in Honly.
  split; [| split; [| split]].
  - intros Hkey. split; revert Honly; rewrite Hkey; apply only_existsb;
      destruct (Js.truthy fanartApiKey), (Js.truthy tmdbApiKey),
        (Item.genre_ids content) as [[| ? ?] |]; by_event.
  - intros Hkey. revert Honly. rewrite Hkey. apply only_existsb.
    destruct (Js.truthy rpdbApiKey), (Js.truthy tmdbApiKey),
      (Item.genre_ids content) as [[| ? ?] |]; by_event.
  - intros Hkey. revert Honly. rewrite Hkey. apply only_existsb.
    destruct (Js.truthy rpdbApiKey), (Js.truthy fanartApiKey),
      (Item.genre_ids content) as [[| ? ?] |]; by_event.
  - intros Hids. revert Honly. apply only_genre_lookups.
    destruct Hids as [-> | ->];
      destruct (Js.truthy rpdbApiKey), (Js.truthy fanartApiKey),
        (Js.truthy tmdbApiKey); reflexivity.
Qed.

(** X19. The record carries an action link exactly when a button label
    is configured, history hiding is the string ['true'] and a user name
    is present; then it is the one link to the watched-marking endpoint
    for this user, kind and id, and otherwise the field is undefined,
    never an empty list. *)
Theorem record_links (meta : Meta.t) :
  result_of handle p w = Fulfilled (Some meta) ->
  Meta.links meta <> Some []
  /\ (forall label user,
        addWatchedTraktBtn = Some label -> label <> "" ->
        hideTraktHistory = Some "true" ->
        traktUsername = Some user -> user <> "" ->
        Meta.links meta
        = Some [trakt_link label user origin catalogType (Item.id content)])
  /\ (Js.truthy addWatchedTraktBtn = false
      \/ hideTraktHistory <> Some "true"
      \/ Js.truthy traktUsername = false ->
      Meta.links meta = None).
Proof.
  intros Hmeta. destruct facts as (_ & _ & Hrecord).
  destruct (Hrecord meta Hmeta) as (_ & _ & _ & _ & _ & Hpure).
  unfold pure_fields in Hpure. injection Hpure as _ _ _ _ _ _ Hlinks.
  rewrite Hlinks. unfold links_of, links_field. repeat split.
  - destruct (_ && _); discriminate.
  - intros label user -> Hlabel -> -> Huser. simpl.
    rewrite (proj2 (String.eqb_neq label "") Hlabel),
      (proj2 (String.eqb_neq user "") Huser).
    reflexivity.
  - intros [Hbtn | [Hhide | Huser]].
    + rewrite Hbtn. reflexivity.
    + rewrite (bool_decide_eq_false_2 _ Hhide), andb_false_r. reflexivity.
    + rewrite Huser, andb_false_r. reflexivity.
Qed.

(** X20. The release information of a record is the first dash-delimited
    segment of the date that applies to the kind (the release date for
    [movies], the first-air date otherwise), and the empty string when
    that date is absent or empty. *)
Theorem record_release_info (meta : Meta.t) :
  result_of handle p w = Fulfilled (Some meta) ->
  let date := if String.eqb catalogType "movies"
              then Item.release_date content
              else Item.first_air_date content in
  (Js.truthy date = false -> Meta.releaseInfo meta = "")
  /\ (forall d, date = Some d -> d <> "" ->
                first_segment_of (Meta.releaseInfo meta) d).
Proof.
  intros Hmeta date. destruct facts as (_ & _ & Hrecord).
  destruct (Hrecord meta Hmeta) as (_ & _ & _ & _ & _ & Hpure).
  unfold pure_fields in Hpure. injection Hpure as _ _ _ _ Hrelease _ _.
  rewrite Hrelease. unfold releaseInfo_of. fold date. split.
  - intros ->. reflexivity.
  - intros d -> Hd. simpl.
    rewrite (proj2 (String.eqb_neq d "") Hd). simpl.
    apply split_dash_0_first_segment.
Qed.

(** X21. Unless the cache read is rejected, every genre id of the item
    is looked up, once and in the order of the ids, also when one of the
    lookups is rejected and the item is dropped. *)
Theorem genre_lookups_all_issued :
  existsb read_failed (trace_of handle p w) = false ->
  map fst (genre_lookups (trace_of handle p w))
  = map (fun genreId => Some (SqlNumber genreId))
        (default [] (Item.genre_ids content)).
Proof.
  destruct facts as (_ & Hlookups & _). exact Hlookups.
Qed.

End ItemFacts.

(** X22. The kind, title, background, description, release information,
    rating and links of a record do not depend on what the collaborators
    answer: two runs for the same item and configuration, under any two
    handlers, agree on them whenever both produce a record. *)
Theorem record_pure_fields_frame
    (BASE_URL : option string) (catalogType language : string)
    (rpdbApiKey fanartApiKey addWatchedTraktBtn hideTraktHistory
       traktUsername : option string)
    (origin : string) (tmdbApiKey : option string) (content : Item.t)
    (W1 W2 : Type)
    (handle1 : forall X, call X -> W1 -> outcome X * W1) (w1 : W1)
    (handle2 : forall X, call X -> W2 -> outcome X * W2) (w2 : W2)
    (meta1 meta2 : Meta.t) :
  let p := processItem BASE_URL fetchLogo catalogType language rpdbApiKey fanartApiKey
             addWatchedTraktBtn hideTraktHistory traktUsername origin
             tmdbApiKey content in
  result_of handle1 p w1 = Fulfilled (Some meta1) ->
  result_of handle2 p w2 = Fulfilled (Some meta2) ->
  pure_fields meta1 = pure_fields meta2.
Proof.
  intros p H1 H2.
  pose proof (post_run handle1 p _ w1
                (processItem_facts BASE_URL catalogType language rpdbApiKey
                   fanartApiKey addWatchedTraktBtn hideTraktHistory
                   traktUsername origin tmdbApiKey content))
    as (_ & _ & Hrecord1).
  pose proof (post_run handle2 p _ w2
                (processItem_facts BASE_URL catalogType language rpdbApiKey
                   fanartApiKey addWatchedTraktBtn hideTraktHistory
                   traktUsername origin tmdbApiKey content))
    as (_ & _ & Hrecord2).
  destruct (Hrecord1 meta1 H1) as (_ & _ & _ & _ & _ & ->).
  destruct (Hrecord2 meta2 H2) as (_ & _ & _ & _ & _ & ->).
  reflexivity.
Qed.

Lemma record_poster_null_iff_no_path_witness :
  exists meta,
    result_of scripted
      (processItem None fetchLogo "movies" "en-US" None None None None None "" None
         (numbered 1)) (with_genres genre_table)
    = Fulfilled (Some meta)
    /\ Meta.poster meta = None.
Proof.
  eexists. split; [vm_compute; reflexivity |].
  match goal with
  | |- Meta.poster ?m = None =>
      apply (record_poster_null_iff_no_path None "movies" "en-US" None None
               None None None "" None (numbered 1) scripted
               (with_genres genre_table) m)
  end.
  - vm_compute. reflexivity.
  - reflexivity.
Defined.

Lemma record_identifier_witness :
  exists meta,
    result_of scripted
      (processItem None fetchLogo "movies" "en-US" None None None None None ""
         (Some "tmdb-key") matrix) rendering
    = Fulfilled (Some meta)
    /\ Meta.id meta = "tt0133093"
    /\ Meta.defaultVideoId meta = "tt0133093".
Proof.
  eexists. split; [vm_compute; reflexivity |].
  match goal with
  | |- Meta.id ?m = _ /\ _ =>
      destruct (record_identifier None "movies" "en-US" None None None None
                  None "" (Some "tmdb-key") matrix scripted rendering m)
        as (Hhint & Hfound & _)
  end.
  - vm_compute. reflexivity.
  - rewrite Hhint. split; apply Hfound; vm_compute; reflexivity.
Defined.

Lemma external_ids_failure_not_fatal_witness :
  exists meta,
    result_of scripted
      (processItem None fetchLogo "movies" "en-US" None None None None None ""
         (Some "tmdb-key") matrix) (with_genres genre_table)
    = Fulfilled (Some meta)
    /\ Meta.id meta = "tmdb:603".
Proof.
  destruct (external_ids_failure_not_fatal None "movies" "en-US" None None None
              None None "" (Some "tmdb-key") matrix scripted
              (with_genres genre_table)) as (meta & Hmeta & Hid).
  - vm_compute. reflexivity.
  - vm_compute. reflexivity.
  - exists meta. split; [exact Hmeta |]. rewrite Hid. vm_compute. reflexivity.
Defined.

Lemma item_calls_follow_configuration_witness :
  existsb is_logo_request
    (trace_of scripted
       (processItem None fetchLogo "movies" "en-US" (Some "t2-key") None None None None
          "" (Some "tmdb-key") matrix) rendering)
  = false.
Proof.
  destruct (item_calls_follow_configuration None "movies" "en-US"
              (Some "t2-key") None None None None "" (Some "tmdb-key") matrix
              scripted rendering) as (_ & _ & Hlogo & _).
  exact (Hlogo eq_refl).
Defined.

Lemma record_links_witness :
  exists meta,
    result_of scripted
      (processItem None fetchLogo "movies" "en-US" None None (Some "Mark watched")
         (Some "true") (Some "neo") "https://addon.example" None matrix)
      rendering
    = Fulfilled (Some meta)
    /\ Meta.links meta
       = Some [ {| link_name := "Mark watched"; category := "Trakt";
                   link_url := "https://addon.example/updateWatched/neo/movies/603" |} ].
Proof.
  eexists. split; [vm_compute; reflexivity |].
  match goal with
  | |- Meta.links ?m = _ =>
      destruct (record_links None "movies" "en-US" None None
                  (Some "Mark watched") (Some "true") (Some "neo")
                  "https://addon.example" None matrix scripted rendering m)
        as (_ & Hlink & _)
  end.
  - vm_compute. reflexivity.
  - rewrite (Hlink "Mark watched" "neo" eq_refl ltac:(discriminate) eq_refl
               eq_refl ltac:(discriminate)).
    vm_compute. reflexivity.
Defined.

Lemma record_release_info_witness :
  exists meta,
    result_of scripted
      (processItem None fetchLogo "movies" "en-US" None None None None None "" None
         matrix) rendering
    = Fulfilled (Some meta)
    /\ first_segment_of (Meta.releaseInfo meta) "1999-03-31".
Proof.
  eexists. split; [vm_compute; reflexivity |].
  match goal with
  | |- first_segment_of (Meta.releaseInfo ?m) _ =>
      destruct (record_release_info None "movies" "en-US" None None None None
                  None "" None matrix scripted rendering m) as (_ & Hdate)
  end.
  - vm_compute. reflexivity.
  - apply Hdate; [reflexivity | discriminate].
Defined.

Lemma genre_lookups_all_issued_witness :
  map fst
    (genre_lookups
       (trace_of scripted
          (processItem None fetchLogo "movies" "en-US" None None None None None "" None
             matrix) (with_genres genre_table_failing)))
  = [Some (SqlNumber 1); Some (SqlNumber 2); Some (SqlNumber 3)].
Proof.
  apply (genre_lookups_all_issued None "movies" "en-US" None None None None
           None "" None matrix scripted (with_genres genre_table_failing)).
  vm_compute. reflexivity.
Defined.

Lemma record_pure_fields_frame_witness :
  exists meta1 meta2,
    result_of scripted
      (processItem None fetchLogo "movies" "en-US" None None None None None "" None
         matrix) rendering
    = Fulfilled (Some meta1)
    /\ result_of scripted
         (processItem None fetchLogo "movies" "en-US" None None None None None "" None
            matrix) (with_genres genre_table)
       = Fulfilled (Some meta2)
    /\ Meta.poster meta1 <> Meta.poster meta2
    /\ pure_fields meta1 = pure_fields meta2.
Proof.
  eexists _, _. split; [vm_compute; reflexivity |].
  split; [vm_compute; reflexivity |]. split; [discriminate |].
  match goal with
  | |- pure_fields ?m1 = pure_fields ?m2 =>
      apply (record_pure_fields_frame None "movies" "en-US" None None None
               None None "" None matrix Answers Answers scripted rendering
               scripted (with_genres genre_table) m1 m2)
  end; vm_compute; reflexivity.
Defined.

(** ** The cache key *)

Lemma getPosterUrl_cache_key_post (BASE_URL : option string)
    (content : Poster.content) (catalogType language : string)
    (rpdbApiKey : option string) :
  post (getPosterUrl BASE_URL content catalogType language rpdbApiKey)
       (fun t r =>
          Forall (eq ("poster:" +:+ pretty (Poster.id content))) (cache_reads t)
          /\ forall poster,
               existsb (cache_hit poster) t = true ->
               r = Fulfilled (Some poster)
               /\ only [CacheRead; LogLine] t = true).
Proof.
  unfold getPosterUrl, ratedPoster.
  destruct (Js.truthy (Poster.poster_path content)); simpl.
  - answer.
    all: split; [repeat constructor |].
    all: intros poster H; simpl in H; rewrite ?orb_false_r in H;
      try discriminate H.
    all: apply String.eqb_eq in H; subst; auto.
  - split; [constructor |]. intros poster H. discriminate H.
Qed.

(** X23. The poster cache is read under [poster:<id>] whatever the kind,
    the language and the paid-service key are, and a row found there is
    returned as it is, with no call besides the read and a log line: a
    URL cached for an id is served for every kind and language. *)
Theorem getPosterUrl_cache_key
    (BASE_URL : option string) (content : Poster.content)
    (catalogType language : string) (rpdbApiKey : option string)
    (W : Type) (handle : forall X, call X -> W -> outcome X * W) (w : W) :
  let p := getPosterUrl BASE_URL content catalogType language rpdbApiKey in
  Forall (eq ("poster:" +:+ pretty (Poster.id content)))
         (cache_reads (trace_of handle p w))
  /\ forall poster,
       existsb (cache_hit poster) (trace_of handle p w) = true ->
       result_of handle p w = Fulfilled (Some poster)
       /\ only [CacheRead; LogLine] (trace_of handle p w) = true.
Proof.
  intros p.
  exact (post_run handle p _ w
           (getPosterUrl_cache_key_post BASE_URL content catalogType language
              rpdbApiKey)).
Qed.

Lemma getPosterUrl_cache_key_witness :
  result_of scripted
    (getPosterUrl None (poster_part matrix) "series" "fr-FR" (Some "t0-other"))
    cache_warm
  = Fulfilled (Some "https://rpdb.example/603.jpg").
Proof.
  apply (getPosterUrl_cache_key None (poster_part matrix) "series" "fr-FR"
           (Some "t0-other") Answers scripted cache_warm).
  vm_compute. reflexivity.
Defined.

(** ** The paid-service URL and the language *)

(** X24. The paid-service URL depends on the language tag through its
    primary subtag only, and for a key of tier [t0] or [t1] it does not
    depend on the language at all. *)
Theorem getRpdbPoster_language_insensitive
    (type : string) (id : Z) (rpdbkey language1 language2 : string) :
  Js.split_dash_0 language1 = Js.split_dash_0 language2
  \/ Js.split_dash_0 rpdbkey = "t0" \/ Js.split_dash_0 rpdbkey = "t1" ->
  getRpdbPoster type id language1 rpdbkey
  = getRpdbPoster type id language2 rpdbkey.
Proof.
  intros H. rewrite !getRpdbPoster_cases.
  case_bool_decide as Htier; [reflexivity |].
  destruct H as [-> | H]; [reflexivity | contradiction].
Qed.

Lemma getRpdbPoster_language_insensitive_witness :
  getRpdbPoster "movies" 603 "en-US" "t2-key"
  = getRpdbPoster "movies" 603 "en-GB" "t2-key"
  /\ getRpdbPoster "movies" 603 "en-US" "t1-key"
     = getRpdbPoster "movies" 603 "fr-FR" "t1-key".
Proof.
  split.
  - apply getRpdbPoster_language_insensitive. left. reflexivity.
  - apply getRpdbPoster_language_insensitive. right. right. reflexivity.
Defined.

(** ** The imported logo client *)

Section LogoClient.

Context {W : Type} (handle : forall X, call X -> W -> outcome X * W).
Variable BASE_URL : option string.
Variable getFanartPoster : Z -> string -> string -> async (option string).
Variables (catalogType language : string).
Variables (rpdbApiKey fanartApiKey : option string).
Variables (addWatchedTraktBtn hideTraktHistory traktUsername : option string).
Variables (origin : string) (tmdbApiKey : option string).



End LogoClient.




Lemma logo_failed_request (e : event) :
  logo_failed e = true -> is_logo_request e = true.
Proof. destruct e as [X c o]. destruct c; simpl; auto. Qed.






